(** * pydap: the constraint-expression parsers and the data model

    A shallow embedding of [pydap/parsers/__init__.py] and [pydap/model.py]
    (Python 2).  Python values that the code only moves around are kept
    abstract; exceptions and non-termination are explicit outcomes. *)

From Stdlib Require Import ZArith List String Ascii Bool Lia.
From Stdlib Require Import DecimalString DecimalNat FunctionalExtensionality.
From stdpp Require Import gmap strings list.

Local Open Scope string_scope.
Local Open Scope Z_scope.

Set Warnings "-register-all".

(** ** Outcomes of a Python call *)

Inductive exn : Type :=
  | KeyError
  | ValueError
  | AttributeError
  | TypeError
  | IndexError.

(** [Diverge] stands for a call that does not return: an endless loop, or a
    recursion that exhausts the interpreter's stack. *)
Inductive outcome (A : Type) : Type :=
  | Ok (a : A)
  | Raise (e : exn)
  | Diverge.

Arguments Ok {A} a.
Arguments Raise {A} e.
Arguments Diverge {A}.

Definition obind {A B} (m : outcome A) (k : A -> outcome B) : outcome B :=
  match m with
  | Ok a => k a
  | Raise e => Raise e
  | Diverge => Diverge
  end.

Notation "x <~ m ;; k" := (obind m (fun x => k))
  (at level 100, m at next level, right associativity).

Fixpoint traverse {A B} (f : A -> outcome B) (l : list A) : outcome (list B) :=
  match l with
  | [] => Ok []
  | a :: l' => b <~ f a ;; bs <~ traverse f l' ;; Ok (b :: bs)
  end.

(** ** Python string primitives used by the parsers *)

Module PyStr.

Definition newline : ascii := "010"%char.

Fixpoint contains (c : ascii) (s : string) : bool :=
  match s with
  | EmptyString => false
  | String d s' => Ascii.eqb c d || contains c s'
  end.

(** [s.split(sep)] for a one-character separator: never an empty list. *)
Fixpoint split (sep : ascii) (s : string) : list string :=
  match s with
  | EmptyString => [EmptyString]
  | String c s' =>
      if Ascii.eqb c sep then EmptyString :: split sep s'
      else match split sep s' with
           | w :: ws => String c w :: ws
           | [] => [String c EmptyString]
           end
  end.

(** [s.find(c)]: the first index of [c], or -1. *)
Fixpoint find (c : ascii) (s : string) : Z :=
  match s with
  | EmptyString => -1
  | String d s' =>
      if Ascii.eqb c d then 0
      else let r := find c s' in if r <? 0 then -1 else r + 1
  end.

(** [s[a:b]], [s[a:]] and [s[:b]] for indices between 0 and [len(s)]. *)
Definition slice (a b : nat) (s : string) : string := substring a (b - a) s.
Definition slice_from (a : nat) (s : string) : string :=
  substring a (String.length s - a) s.
Definition slice_to (b : nat) (s : string) : string := substring 0 b s.

Fixpoint lstrip (p : ascii -> bool) (s : string) : string :=
  match s with
  | EmptyString => EmptyString
  | String c s' => if p c then lstrip p s' else s
  end.

Fixpoint rstrip (p : ascii -> bool) (s : string) : string :=
  match s with
  | EmptyString => EmptyString
  | String c s' =>
      match rstrip p s' with
      | EmptyString => if p c then EmptyString else String c EmptyString
      | r => String c r
      end
  end.

(** [s.strip(chars)] *)
Definition strip (p : ascii -> bool) (s : string) : string :=
  lstrip p (rstrip p s).

Definition is_bracket (c : ascii) : bool :=
  Ascii.eqb c "["%char || Ascii.eqb c "]"%char.

(** C's [isspace] in the default locale. *)
Definition is_space (c : ascii) : bool :=
  let n := nat_of_ascii c in
  Nat.eqb n 32 || (Nat.leb 9 n && Nat.leb n 13).

Definition is_digit (c : ascii) : bool :=
  let n := nat_of_ascii c in Nat.leb 48 n && Nat.leb n 57.

Definition digit_value (c : ascii) : Z := Z.of_nat (nat_of_ascii c - 48).

Fixpoint digits_value (acc : Z) (s : string) : option Z :=
  match s with
  | EmptyString => Some acc
  | String c s' =>
      if is_digit c then digits_value (10 * acc + digit_value c) s' else None
  end.

(** [int(s)] on a byte string, base 10: white space around the literal is
    ignored, one sign may precede the digits, and there is at least one
    digit; anything else is a [ValueError]. *)
Definition int (s : string) : outcome Z :=
  let t := strip is_space s in
  let '(sign, body) :=
    match t with
    | String c b =>
        if Ascii.eqb c "+" then (1, b)
        else if Ascii.eqb c "-" then (-1, b)
        else (1, t)
    | EmptyString => (1, t)
    end in
  match body with
  | EmptyString => Raise ValueError
  | _ => match digits_value 0 body with
         | Some v => Ok (sign * v)
         | None => Raise ValueError
         end
  end.

(** *** [urllib.unquote] and [urllib.quote] *)

Definition hex_value (c : ascii) : option nat :=
  let n := nat_of_ascii c in
  if Nat.leb 48 n && Nat.leb n 57 then Some (n - 48)%nat
  else if Nat.leb 65 n && Nat.leb n 70 then Some (n - 55)%nat
  else if Nat.leb 97 n && Nat.leb n 102 then Some (n - 87)%nat
  else None.

(** One piece after a [%]: [_hextochr[item[:2]] + item[2:]], or the piece
    with its [%] put back when the two characters are not hex digits. *)
Definition unquote_item (item : string) : string :=
  match item with
  | String a (String b rest) =>
      match hex_value a, hex_value b with
      | Some x, Some y => String (ascii_of_nat (16 * x + y)) rest
      | _, _ => String "%" item
      end
  | _ => String "%" item
  end.

Definition unquote (s : string) : string :=
  match split "%" s with
  | [] => s
  | [_] => s
  | first :: items => fold_left (fun acc item => acc ++ unquote_item item) items first
  end.

Definition always_safe (c : ascii) : bool :=
  let n := nat_of_ascii c in
  (Nat.leb 65 n && Nat.leb n 90) || (Nat.leb 97 n && Nat.leb n 122)
  || (Nat.leb 48 n && Nat.leb n 57)
  || Ascii.eqb c "_" || Ascii.eqb c "." || Ascii.eqb c "-".

Definition hex_digit (n : nat) : ascii :=
  if Nat.ltb n 10 then ascii_of_nat (48 + n) else ascii_of_nat (55 + n).

(** [quote(s)] with the default [safe='/']. *)
Fixpoint quote (s : string) : string :=
  match s with
  | EmptyString => EmptyString
  | String c s' =>
      if always_safe c || Ascii.eqb c "/" then String c (quote s')
      else let n := nat_of_ascii c in
           String "%" (String (hex_digit (n / 16)) (String (hex_digit (n mod 16)) (quote s')))
  end.

(** *** The two regular expressions of the module *)

Fixpoint is_prefix (p s : string) : bool :=
  match p, s with
  | EmptyString, _ => true
  | String a p', String b s' => Ascii.eqb a b && is_prefix p' s'
  | String _ _, EmptyString => false
  end.

(** [re.search(alt1|alt2|..., s)] for literal alternatives: some position of
    [s] starts with one of them. *)
Fixpoint search_any (alts : list string) (s : string) : bool :=
  existsb (fun a => is_prefix a s) alts
  || match s with
     | EmptyString => false
     | String _ s' => search_any alts s'
     end.

Definition last_char (s : string) : option ascii :=
  match String.length s with
  | O => None
  | S n => String.get n s
  end.

Definition ends_with (c : ascii) (s : string) : bool :=
  match last_char s with
  | Some d => Ascii.eqb c d
  | None => false
  end.

(** [$] matches at the end of the string and just before a final newline. *)
Definition at_end (rest : string) : bool :=
  String.eqb rest EmptyString || String.eqb rest (String newline EmptyString).

(** The second group followed by [$]: the text from here on is [[], anything
    without a newline, []], up to a final newline that [$] tolerates. *)
Definition match_brackets (rest : string) : option string :=
  let r := if ends_with newline rest
           then slice_to (String.length rest - 1) rest else rest in
  if is_prefix "[" r && ends_with "]" r && Nat.leb 2 (String.length r)
     && negb (contains newline r)
  then Some r else None.

(** [re.match('(.*?)(\[.*\])?$', part).groups()]: the first group is
    lengthened one character at a time; at each length the bracket group is
    tried before the empty alternative.  [None] when nothing matches. *)
Fixpoint match_segment (name : string) (rest : string)
  : option (string * option string) :=
  match match_brackets rest with
  | Some g => Some (name, Some g)
  | None =>
      if at_end rest then Some (name, None)
      else match rest with
           | EmptyString => None
           | String c rest' =>
               if Ascii.eqb c newline then None
               else match_segment (name ++ String c EmptyString) rest'
           end
  end.

End PyStr.

(** ** [pydap/parsers/__init__.py] *)

Module Parsers.
Import PyStr.

(** A Python [slice(start, stop, step)]; [None] fields are [None]. *)
Record pyslice : Type := Slice {
  start : option Z;
  stop : option Z;
  step : option Z
}.

(** An item of a projection: a function call kept as text, or a dotted path
    as a list of (quoted name, hyperslab) pairs. *)
Inductive proj_item : Type :=
  | FuncToken (token : string)
  | PathItem (segments : list (string * list pyslice)).

Definition nonempty (s : string) : bool :=
  match s with
  | EmptyString => false
  | String _ _ => true
  end.

(** The [while to_split:] loop of [parse_hyperslab].  When no closing
    bracket is left, [find] returns -1, [rbracket] is 0 and the loop makes
    no progress. *)
Fixpoint split_dimensions (fuel : nat) (to_split : string)
    (dimensions : list string) : outcome (list string) :=
  match to_split with
  | EmptyString => Ok dimensions
  | String _ _ =>
      match fuel with
      | O => Diverge
      | S fuel' =>
          let rbracket := Z.to_nat (find "]" to_split + 1) in
          split_dimensions fuel' (slice_from rbracket to_split)
            (dimensions ++ [slice_to rbracket to_split])
      end
  end.

(** [int(tok) + 1 if tok else None] *)
Definition stop_of (tok : string) : outcome (option Z) :=
  if nonempty tok then (v <~ int tok ;; Ok (Some (v + 1))) else Ok None.

(** The body of the [for dim in dimensions:] loop. *)
Definition parse_dimension (dim : string) : outcome pyslice :=
  let dim := strip is_bracket dim in
  let tokens := split ":" dim in
  match tokens with
  | [t0] =>
      if nonempty t0
      then (start <~ int t0 ;; Ok (Slice (Some start) (Some (start + 1)) None))
      else Ok (Slice None None None)
  | [t0; t1] =>
      start <~ int t0 ;;
      stop <~ stop_of t1 ;;
      Ok (Slice (Some start) stop None)
  | [t0; t1; t2] =>
      start <~ int t0 ;;
      step <~ int t1 ;;
      stop <~ stop_of t2 ;;
      Ok (Slice (Some start) stop (Some step))
  | _ => Ok (Slice None None None)
  end.

(** Every productive turn of the loop removes at least one character, so
    [len(hyperslab)] turns are enough whenever the loop ends at all
    (see [split_dimensions_stuck] and [split_dimensions_fuel]). *)
Definition parse_hyperslab (hyperslab : string) : outcome (list pyslice) :=
  dimensions <~ split_dimensions (String.length hyperslab) hyperslab [] ;;
  traverse parse_dimension dimensions.

(** The generator [tokenize] of [parse_projection]. *)
Fixpoint tokenize_loop (input chars : string) (start pos : nat) (count : Z)
  : list string :=
  match chars with
  | EmptyString => [slice_from start input]
  | String char chars' =>
      if Ascii.eqb char "(" then
        tokenize_loop input chars' start (S pos) (count + 1)
      else if Ascii.eqb char ")" then
        tokenize_loop input chars' start (S pos) (count - 1)
      else if Ascii.eqb char "," && (count =? 0) then
        slice start pos input :: tokenize_loop input chars' (S pos) (S pos) count
      else
        tokenize_loop input chars' start (S pos) count
  end.

Definition tokenize (input : string) : list string :=
  tokenize_loop input input 0 0 0.

(** [.groups()] on a failed match is an [AttributeError]. *)
Definition groups (part : string) : outcome (string * option string) :=
  match match_segment EmptyString part with
  | Some g => Ok g
  | None => Raise AttributeError
  end.

Definition parse (token : string) : outcome proj_item :=
  if contains "(" token then Ok (FuncToken token)
  else
    parts <~ traverse groups (split "." token) ;;
    segments <~ traverse (fun '(name, slice_) =>
                  h <~ parse_hyperslab (default EmptyString slice_) ;;
                  Ok (quote name, h)) parts ;;
    Ok (PathItem segments).

Definition parse_projection (input : string) : outcome (list proj_item) :=
  traverse parse (tokenize input).

Definition comparison_operators : list string :=
  ["<="; ">="; "!="; "=~"; ">"; "<"; "="].

Definition parse_ce (query_string : string)
  : outcome (list proj_item * list string) :=
  let tokens := List.filter nonempty (split "&" (unquote query_string)) in
  match tokens with
  | [] => Ok ([], [])
  | first :: rest =>
      if search_any comparison_operators first then Ok ([], tokens)
      else (projection <~ parse_projection first ;; Ok (projection, rest))
  end.

(** *** [SimpleParser] *)

Section SimpleParser.

(** [re.compile(regexp, flags).match(buffer)]: the regular expressions are
    those of the callers, so the matcher is a parameter.  A match starts at
    the head of the buffer, and is given by where it ends. *)
Variable regexp : Type.
Variable re_match : regexp -> Z -> string -> option nat.






End SimpleParser.

End Parsers.


(** ** Well-formed bracket groups, as the grammar of the spec writes them *)

Module Hyperslab.
Import PyStr Parsers.

(** The decimal text of a natural number (the grammar's [INT]). *)
Definition decimal (n : nat) : string :=
  NilZero.string_of_uint (Nat.to_uint n).

Definition decimal_opt (o : option nat) : string :=
  match o with
  | Some n => decimal n
  | None => EmptyString
  end.

Inductive group : Type :=
  | Full
  | Index (i : nat)
  | Range (start : nat) (stop : option nat)
  | Strided (start step : nat) (stop : option nat).

(** What stands between the brackets: nothing, [i], [start:stop] or
    [start:step:stop], the last bound possibly left out. *)
Definition body (g : group) : string :=
  match g with
  | Full => EmptyString
  | Index i => decimal i
  | Range start stop => decimal start ++ ":" ++ decimal_opt stop
  | Strided start step stop =>
      decimal start ++ ":" ++ decimal step ++ ":" ++ decimal_opt stop
  end.

Definition render (g : group) : string := "[" ++ body g ++ "]".

(** The inclusive upper bound made exclusive; an absent bound stays absent. *)
Definition exclusive (stop : option nat) : option Z :=
  match stop with
  | Some n => Some (Z.of_nat n + 1)
  | None => None
  end.

(** The triple the spec gives for each form. *)
Definition slice_of (g : group) : pyslice :=
  match g with
  | Full => Slice None None None
  | Index i => Slice (Some (Z.of_nat i)) (Some (Z.of_nat i + 1)) None
  | Range start stop => Slice (Some (Z.of_nat start)) (exclusive stop) None
  | Strided start step stop =>
      Slice (Some (Z.of_nat start)) (exclusive stop) (Some (Z.of_nat step))
  end.

Fixpoint render_all (gs : list group) : string :=
  match gs with
  | [] => EmptyString
  | g :: gs' => render g ++ render_all gs'
  end.

(** Every character of [s] satisfies [p]. *)
Fixpoint all_chars (p : ascii -> bool) (s : string) : bool :=
  match s with
  | EmptyString => true
  | String c s' => p c && all_chars p s'
  end.

(** The colon-separated fields of a bracket group. *)
Definition fields (dim : string) : list string :=
  split ":" (strip is_bracket dim).

End Hyperslab.

(** ** Well-formed projections and queries *)

Module Queries.
Import PyStr Parsers Hyperslab.












(** A call that returns, or raises one of the two exceptions that the
    parsers of paths and hyperslabs give rise to. *)
Definition parse_outcome {A : Type} (o : outcome A) : Prop :=
  match o with
  | Ok _ => True
  | Raise e => e = ValueError \/ e = AttributeError
  | Diverge => False
  end.

End Queries.

(** ** [pack_rows] and [unpack_rows] of [pydap/model.py] *)

Module Rows.

(** The Python values the two functions meet: leaves, lists and tuples. *)
Inductive pyval : Type :=
  | PInt (z : Z)
  | PStr (s : string)
  | PList (items : list pyval)
  | PTuple (items : list pyval).

(** [iter(v)]: lists and tuples give their items, a string its characters,
    a number is not iterable. *)
Definition iterate (v : pyval) : outcome (list pyval) :=
  match v with
  | PList items => Ok items
  | PTuple items => Ok items
  | PStr s => Ok (map (fun c => PStr (String c EmptyString)) (list_ascii_of_string s))
  | PInt _ => Raise TypeError
  end.

(** [zip(c1, ..., cn)] on the items of its arguments: as many rows as the
    shortest argument has items, and no row when there is no argument. *)
Fixpoint zip_lists {A : Type} (cols : list (list A)) : list (list A) :=
  match cols with
  | [] => []
  | c :: cs =>
      match cs with
      | [] => map (fun x => [x]) c
      | _ :: _ => zip_with cons c (zip_lists cs)
      end
  end.

(** The arguments that [zip] receives from the unpacked [data], each as the
    list of its items. *)
Definition columns (data : pyval) : outcome (list (list pyval)) :=
  cols <~ iterate data ;; traverse iterate cols.

(** [zip] applied to the unpacked [data]: a list of tuples. *)
Definition zip_star (data : pyval) : outcome (list pyval) :=
  cols <~ columns data ;; Ok (map PTuple (zip_lists cols)).

(** [level] counts nesting levels; it is a natural number here, the callers
    passing the depth of a sequence. *)
Fixpoint pack_rows (data : pyval) (level : nat) : outcome pyval :=
  match level with
  | O => Ok data
  | S level' =>
      rows <~ zip_star data ;;
      packed <~ traverse (fun value => pack_rows value level') rows ;;
      Ok (PList packed)
  end.

Fixpoint unpack_rows (data : pyval) (level : nat) : outcome pyval :=
  match level with
  | O => Ok data
  | S level' =>
      values <~ iterate data ;;
      unpacked <~ traverse (fun value => unpack_rows value level') values ;;
      rows <~ zip_star (PList unpacked) ;;
      Ok (PList rows)
  end.

(** *** Shapes of column data *)

Definition same_length {A : Type} (cols : list (list A)) : bool :=
  match cols with
  | [] => true
  | c :: cs => forallb (fun c' => Nat.eqb (length c') (length c)) cs
  end.

Definition has_items {A : Type} (l : list A) : bool :=
  match l with
  | [] => false
  | _ :: _ => true
  end.

(** Parallel columns nested [level] deep: the columns have one length, and
    the entries of each row are again parallel columns, one level less. *)
Fixpoint rectangular (level : nat) (data : pyval) : bool :=
  match level with
  | O => true
  | S level' =>
      match columns data with
      | Ok cols =>
          same_length cols
          && forallb (fun row => rectangular level' (PTuple row)) (zip_lists cols)
      | _ => false
      end
  end.

(** No column is empty, at any of the [level] levels. *)
Fixpoint populated (level : nat) (data : pyval) : bool :=
  match level with
  | O => true
  | S level' =>
      match columns data with
      | Ok cols =>
          forallb has_items cols
          && forallb (fun row => populated level' (PTuple row)) (zip_lists cols)
      | _ => false
      end
  end.

(** The same items with every sequence of the first [level] levels turned
    into a tuple. *)
Fixpoint to_tuples (level : nat) (v : pyval) : pyval :=
  match level with
  | O => v
  | S level' =>
      match iterate v with
      | Ok items => PTuple (map (to_tuples level') items)
      | _ => v
      end
  end.

(** The columns as [unpack_rows] returns them: a list of (nested) tuples. *)
Definition as_columns (level : nat) (data : pyval) : pyval :=
  match level with
  | O => data
  | S _ =>
      match iterate data with
      | Ok cols => PList (map (to_tuples level) cols)
      | _ => data
      end
  end.

(** *** Shapes of record data *)

(** Records of [n] fields nested [level] deep: a record is a sequence of [n]
    items; a level above, a sequence that has an item, each of its items
    being records nested one level less. *)
Fixpoint records (level n : nat) (v : pyval) {struct level} : bool :=
  match iterate v with
  | Ok items =>
      match level with
      | O => Nat.eqb (length items) n
      | S level' => has_items items && forallb (records level' n) items
      end
  | _ => false
  end.


(** *** Sample inputs *)

(** The nested records of the docstring of [unpack_rows], as it prints
    them. *)
Definition nested_columns : pyval :=
  PList [PTuple [PTuple [PStr "a"; PStr "b"; PStr "c"]; PTuple [PStr "d"];
                 PTuple [PStr "e"; PStr "f"]];
         PTuple [PTuple [PInt 1; PInt 2; PInt 3]; PTuple [PInt 4];
                 PTuple [PInt 5; PInt 6]]].

(** Two columns and no row. *)
Definition empty_columns : pyval := PList [PTuple []; PTuple []].

(** Two columns of two rows, as lists. *)
Definition list_columns : pyval :=
  PList [PList [PInt 1; PInt 2]; PList [PInt 3; PInt 4]].



End Rows.


(** ** [pydap/model.py]: the tree of variables *)

Module Model.
Import Parsers.

(** *** Python values that reach the model from outside *)

(** [data] is whatever a variable holds: a Numpy array, an array proxy, a
    record array.  The model only passes such values around and indexes,
    compares and iterates them through [ArrayLike]. *)
Inductive pyobj (data : Type) : Type :=
  | ONone
  | OInt (z : Z)
  | OStr (s : string)
  | OSlice (sl : pyslice)
  | OTuple (items : list (pyobj data))
  | OList (items : list (pyobj data))
  | OData (d : data).

Arguments ONone {data}.
Arguments OInt {data} z.
Arguments OStr {data} s.
Arguments OSlice {data} sl.
Arguments OTuple {data} items.
Arguments OList {data} items.
Arguments OData {data} d.

(** The three things the model asks of the data it holds. *)
Class ArrayLike (data : Type) : Type := {
  (** [d[index]] *)
  data_getitem : data -> pyobj data -> outcome data;
  (** [d > other] *)
  data_gt : data -> pyobj data -> outcome data;
  (** [iter(d)] *)
  data_iter : data -> outcome (list data)
}.

(** A reference to an object of the heap. *)
Abbreviation ref := nat.

Inductive class : Type :=
  | BaseType
  | StructureType
  | DatasetType
  | SequenceType
  | GridType.

Section Tree.

Context {data : Type} `{ArrayLike data}.

(** [pydap.lib.quote] is not among the sources: it is a parameter of the
    model. *)
Variable quote : string -> string.

(** The instance attributes of a node.  [o_data] is [BaseType.data] and
    [SequenceType._data] ([None] for Python's [None]); [o_keys] and [o_dict]
    are [_keys] and [_dict] of the containers.  The attributes are held by
    value: nothing below depends on two nodes sharing one dictionary. *)
Record obj : Type := Obj {
  o_class : class;
  o_name : string;
  o_attributes : gmap string (pyobj data);
  o_id : string;
  o_keys : list string;
  o_dict : gmap string ref;
  o_data : option data;
  o_dimensions : list string
}.

Definition with_id (id : string) (o : obj) : obj :=
  Obj (o_class o) (o_name o) (o_attributes o) id (o_keys o) (o_dict o)
      (o_data o) (o_dimensions o).

Definition with_data (d : option data) (o : obj) : obj :=
  Obj (o_class o) (o_name o) (o_attributes o) (o_id o) (o_keys o) (o_dict o)
      d (o_dimensions o).

Definition with_children (keys : list string) (dict : gmap string ref)
    (o : obj) : obj :=
  Obj (o_class o) (o_name o) (o_attributes o) (o_id o) keys dict
      (o_data o) (o_dimensions o).

(** The heap: the objects in the order of their creation. *)
#[local] Abbreviation heap := (list obj).

(** *** Calls that read and write the heap *)

(** A call returns, raises or diverges, and leaves a heap behind: what was
    written before an exception stays written. *)
Definition M (A : Type) : Type := heap -> outcome A * heap.

Definition ret {A : Type} (a : A) : M A := fun h => (Ok a, h).
Definition raise {A : Type} (e : exn) : M A := fun h => (Raise e, h).
Definition diverge {A : Type} : M A := fun h => (Diverge, h).

Definition bind {A B : Type} (m : M A) (k : A -> M B) : M B :=
  fun h =>
    match m h with
    | (Ok a, h') => k a h'
    | (Raise e, h') => (Raise e, h')
    | (Diverge, h') => (Diverge, h')
    end.

Definition lift {A : Type} (o : outcome A) : M A := fun h => (o, h).

(** [try: m except: handler] with a bare [except]. *)
Definition try_except {A : Type} (m : M A) (handler : M A) : M A :=
  fun h =>
    match m h with
    | (Raise _, h') => handler h'
    | r => r
    end.

Notation "x <-- m ;; k" := (bind m (fun x => k))
  (at level 100, m at next level, right associativity).

(** A reference that is no object of the heap stands for a value that is
    not a node: using it as one is an [AttributeError]. *)
Definition get_obj (r : ref) : M obj :=
  fun h =>
    match h !! r with
    | Some o => (Ok o, h)
    | None => (Raise AttributeError, h)
    end.

Definition modify (r : ref) (f : obj -> obj) : M unit :=
  fun h =>
    match h !! r with
    | Some o => (Ok tt, <[r := f o]> h)
    | None => (Raise AttributeError, h)
    end.

(** A new object: its reference is the next free one. *)
Definition alloc (o : obj) : M ref := fun h => (Ok (length h), (h ++ [o])%list).

Fixpoint for_each {A : Type} (l : list A) (body : A -> M unit) : M unit :=
  match l with
  | [] => ret tt
  | a :: l' => _ <-- body a ;; for_each l' body
  end.

(** *** [DapType] *)

(** [DapType.__init__]: the name is quoted, the keyword arguments are merged
    into the attributes, the id starts as the name. *)
Definition DapType_init (cls : class) (name : string)
    (attributes kwargs : gmap string (pyobj data)) : obj :=
  let name := quote name in
  Obj cls name (kwargs ∪ attributes) name [] ∅ None [].

(** The keys that [children()] walks: [DapType.children] yields nothing,
    [StructureType.children] is the generator over [_keys], also for the
    classes that redefine [__iter__]. *)
Definition children_keys (o : obj) : list string :=
  match o_class o with
  | BaseType => []
  | _ => o_keys o
  end.

(** [self._dict[key]] *)
Definition child_of (self : ref) (key : string) : M ref :=
  o <-- get_obj self ;;
  match o_dict o !! key with
  | Some r => ret r
  | None => raise KeyError
  end.

(** [DapType._set_id], the setter of the property [id].  The property is
    built in [DapType] from this very function, so it is also what
    [x.id = ...] runs on a [DatasetType]. *)
Fixpoint DapType_set_id (fuel : nat) (self : ref) (id : string) : M unit :=
  match fuel with
  | O => diverge
  | S fuel' =>
      _ <-- modify self (with_id id) ;;
      o <-- get_obj self ;;
      for_each (children_keys o) (fun key =>
        child <-- child_of self key ;;
        c <-- get_obj child ;;
        DapType_set_id fuel' child (id ++ "." ++ o_name c))
  end.

(** [DatasetType._set_id]: no caller reaches it through the property. *)
Definition DatasetType_set_id (fuel : nat) (self : ref) (id : string) : M unit :=
  _ <-- modify self (with_id id) ;;
  o <-- get_obj self ;;
  for_each (children_keys o) (fun key =>
    child <-- child_of self key ;;
    c <-- get_obj child ;;
    DapType_set_id fuel child (o_name c)).

(** [DapType.__getattr__] *)
Inductive attribute : Type :=
  | Child (r : ref)
  | Metadata (v : pyobj data).

Definition DapType_getattr (self : ref) (attr : string) : M attribute :=
  o <-- get_obj self ;;
  match o_attributes o !! attr with
  | Some v => ret (Metadata v)
  | None => raise AttributeError
  end.

(** *** [BaseType] *)

Definition new_BaseType (name : string) (d : option data)
    (dimensions : list string) (attributes kwargs : gmap string (pyobj data))
  : M ref :=
  let o := DapType_init BaseType name attributes kwargs in
  alloc (Obj (o_class o) (o_name o) (o_attributes o) (o_id o) (o_keys o)
             (o_dict o) d dimensions).

(** [d[index]] for the value of a data attribute: [None] has no items. *)
Definition getitem_data (d : option data) (index : pyobj data) : M data :=
  match d with
  | Some d => lift (data_getitem d index)
  | None => raise TypeError
  end.

Definition BaseType_getitem (self : ref) (index : pyobj data) : M data :=
  o <-- get_obj self ;; getitem_data (o_data o) index.

Definition BaseType_gt (self : ref) (other : pyobj data) : M data :=
  o <-- get_obj self ;;
  match o_data o with
  | Some d => lift (data_gt d other)
  | None => raise TypeError
  end.

Definition BaseType_clone (fuel : nat) (self : ref) : M ref :=
  o <-- get_obj self ;;
  out <-- new_BaseType (o_name o) (o_data o) (o_dimensions o) (o_attributes o) ∅ ;;
  o <-- get_obj self ;;
  _ <-- DapType_set_id fuel out (o_id o) ;;
  ret out.

(** *** [StructureType] and [DatasetType] *)

Definition new_container (cls : class) (name : string) (d : option data)
    (attributes kwargs : gmap string (pyobj data)) : M ref :=
  let o := DapType_init cls name attributes kwargs in
  alloc (with_data d o).

(** [keys.pop(keys.index(key))]: the first occurrence goes. *)
Fixpoint remove_first (key : string) (keys : list string) : list string :=
  match keys with
  | [] => []
  | k :: keys' => if String.eqb key k then keys' else k :: remove_first key keys'
  end.

Definition key_in (key : string) (keys : list string) : bool :=
  existsb (String.eqb key) keys.

(** The three statements of [__setitem__] on [_keys] and [_dict]: the key is
    taken out when it is there, appended, and bound to the item. *)
Definition attach (key : string) (item : ref) (o : obj) : obj :=
  let keys := if key_in key (o_keys o)
              then remove_first key (o_keys o) else o_keys o in
  with_children (keys ++ [key]) (<[key := item]> (o_dict o)) o.

Definition StructureType_setitem (fuel : nat) (self : ref) (key : string)
    (item : ref) : M unit :=
  let key := quote key in
  it <-- get_obj item ;;
  if negb (String.eqb key (o_name it)) then raise KeyError
  else
    _ <-- modify self (attach key item) ;;
    s <-- get_obj self ;;
    it <-- get_obj item ;;
    DapType_set_id fuel item (o_id s ++ "." ++ o_name it).

Definition DatasetType_setitem (fuel : nat) (self : ref) (key : string)
    (item : ref) : M unit :=
  it <-- get_obj item ;;
  if negb (String.eqb key (o_name it)) then raise KeyError
  else
    _ <-- StructureType_setitem fuel self key item ;;
    it <-- get_obj item ;;
    DapType_set_id fuel item (o_name it).

(** [self[key] = item]: [DatasetType] has its own [__setitem__], the other
    containers run [StructureType]'s, and a [BaseType] has none. *)
Definition setitem (fuel : nat) (self : ref) (key : string) (item : ref)
  : M unit :=
  o <-- get_obj self ;;
  match o_class o with
  | BaseType => raise TypeError
  | DatasetType => DatasetType_setitem fuel self key item
  | _ => StructureType_setitem fuel self key item
  end.

(** Whether a value can be the key of a dictionary. *)
Fixpoint hashable (k : pyobj data) : bool :=
  match k with
  | OTuple items => forallb hashable items
  | OList _ | OSlice _ | OData _ => false
  | _ => true
  end.

(** [StructureType.__getitem__]: [self._dict[key]]; the keys of [_dict] are
    strings. *)
Definition StructureType_getitem (self : ref) (key : pyobj data) : M ref :=
  match key with
  | OStr k => child_of self k
  | _ => if hashable key then raise KeyError else raise TypeError
  end.


(** [StructureType.clone] and [SequenceType.clone], and the dispatch of
    [child.clone()].  A [SequenceType] passes its data to the copy. *)
Fixpoint clone (fuel : nat) (self : ref) : M ref :=
  match fuel with
  | O => diverge
  | S fuel' =>
      o <-- get_obj self ;;
      match o_class o with
      | BaseType => BaseType_clone fuel' self
      | cls =>
          out <-- new_container cls (o_name o)
                    (match cls with SequenceType => o_data o | _ => None end)
                    (o_attributes o) ∅ ;;
          o <-- get_obj self ;;
          _ <-- DapType_set_id fuel' out (o_id o) ;;
          o <-- get_obj self ;;
          _ <-- for_each (children_keys o) (fun key =>
                  child <-- child_of self key ;;
                  copy <-- clone fuel' child ;;
                  c <-- get_obj child ;;
                  setitem fuel' out (o_name c) copy) ;;
          ret out
      end
  end.

(** *** Assigning to [data] *)

(** [reduce(operator.getitem, [data] + tokens)] *)
Fixpoint getitem_path (d : option data) (tokens : list string)
  : M (option data) :=
  match tokens with
  | [] => ret d
  | token :: tokens' =>
      d' <-- getitem_data d (OStr token) ;; getitem_path (Some d') tokens'
  end.

Fixpoint map_M {A B : Type} (f : A -> M B) (l : list A) : M (list B) :=
  match l with
  | [] => ret []
  | a :: l' => b <-- f a ;; bs <-- map_M f l' ;; ret (b :: bs)
  end.

(** [x.data = d]: a plain attribute on a [BaseType], the setter
    [SequenceType._set_data] on a sequence, [StructureType._set_data] on the
    other containers.  [zip] stops asking for children when the columns run
    out. *)
Fixpoint set_data (fuel : nat) (self : ref) (d : option data) : M unit :=
  match fuel with
  | O => diverge
  | S fuel' =>
      o <-- get_obj self ;;
      match o_class o with
      | BaseType => modify self (with_data d)
      | SequenceType =>
          _ <-- modify self (with_data d) ;;
          o <-- get_obj self ;;
          for_each (children_keys o) (fun key =>
            child <-- child_of self key ;;
            c <-- get_obj child ;;
            s <-- get_obj self ;;
            let tokens :=
              PyStr.split "." (PyStr.slice_from (String.length (o_id s) + 1) (o_id c)) in
            v <-- getitem_path d tokens ;;
            set_data fuel' child v)
      | _ =>
          cols <-- match d with
                   | Some d => lift (data_iter d)
                   | None => raise TypeError
                   end ;;
          o <-- get_obj self ;;
          vars <-- map_M (child_of self) (take (length cols) (children_keys o)) ;;
          for_each (zip cols vars) (fun '(col, var) =>
            set_data fuel' var (Some col))
      end
  end.

(** *** [__getitem__] *)

(** What [x[key]] evaluates to: a node, or a piece of data. *)
Inductive value : Type :=
  | VNode (r : ref)
  | VData (d : data).

(** [SequenceType.__getitem__] on a tuple of names. *)
Definition SequenceType_select (fuel : nat) (self : ref)
    (names : list (pyobj data)) : M ref :=
  o <-- get_obj self ;;
  out <-- new_container SequenceType (o_name o) (o_data o) (o_attributes o) ∅ ;;
  _ <-- for_each names (fun name =>
          child <-- StructureType_getitem self name ;;
          copy <-- clone fuel child ;;
          match name with
          | OStr n => setitem fuel out n copy
          | _ => raise TypeError
          end) ;;
  o <-- get_obj self ;;
  d <-- getitem_data (o_data o) (OList names) ;;
  _ <-- set_data fuel out (Some d) ;;
  ret out.

(** [SequenceType.__getitem__] on any other index. *)
Definition SequenceType_filter (fuel : nat) (self : ref) (key : pyobj data)
  : M ref :=
  out <-- clone fuel self ;;
  o <-- get_obj self ;;
  d <-- getitem_data (o_data o) key ;;
  _ <-- set_data fuel out (Some d) ;;
  ret out.

(** [key = (key,)] unless it is a tuple already. *)
Definition as_tuple (key : pyobj data) : list (pyobj data) :=
  match key with
  | OTuple items => items
  | _ => [key]
  end.

(** [[key] + list(key)] for the tuple that [key] has become. *)
Definition grid_slices (key : pyobj data) : list (pyobj data) :=
  OTuple (as_tuple key) :: as_tuple key.

(** [x[key]] for a node [x], by class.  In a grid the children of the copy
    are paired with [[key] + list(key)], [zip] asking for one child more
    before it finds the slices exhausted; a data attribute holds data, so a
    node cannot be assigned to it. *)
Fixpoint getitem (fuel : nat) (self : ref) (key : pyobj data) : M value :=
  o <-- get_obj self ;;
  match o_class o with
  | BaseType => d <-- BaseType_getitem self key ;; ret (VData d)
  | StructureType | DatasetType =>
      r <-- StructureType_getitem self key ;; ret (VNode r)
  | SequenceType =>
      match key with
      | OStr _ => r <-- StructureType_getitem self key ;; ret (VNode r)
      | OTuple names => r <-- SequenceType_select fuel self names ;; ret (VNode r)
      | _ => r <-- SequenceType_filter fuel self key ;; ret (VNode r)
      end
  | GridType =>
      match key with
      | OStr _ => r <-- StructureType_getitem self key ;; ret (VNode r)
      | _ =>
          match fuel with
          | O => diverge
          | S fuel' =>
              let slices := grid_slices key in
              out <-- clone fuel self ;;
              oo <-- get_obj out ;;
              vars <-- map_M (child_of out)
                         (take (S (length slices)) (children_keys oo)) ;;
              _ <-- for_each (zip vars slices) (fun '(var, slice_) =>
                      v <-- get_obj var ;;
                      child <-- StructureType_getitem self (OStr (o_name v)) ;;
                      x <-- getitem fuel' child slice_ ;;
                      match x with
                      | VData d => set_data fuel var (Some d)
                      | VNode _ => raise TypeError
                      end) ;;
              ret (VNode out)
          end
      end
  end.

(** *** [StructureType.__getattr__] *)

Definition StructureType_getattr (fuel : nat) (self : ref) (attr : string)
  : M attribute :=
  try_except
    (v <-- getitem fuel self (OStr attr) ;;
     match v with
     | VNode r => ret (Child r)
     | VData d => ret (Metadata (OData d))
     end)
    (DapType_getattr self attr).

(** [__getattr__], the hook that Python calls for a name that the ordinary
    lookup of attributes did not find. *)
Definition getattr_hook (fuel : nat) (self : ref) (attr : string) : M attribute :=
  o <-- get_obj self ;;
  match o_class o with
  | BaseType => DapType_getattr self attr
  | _ => StructureType_getattr fuel self attr
  end.

(** *** The rest of [StructureType] *)


(** [StructureType.keys]: a copy of [_keys]. *)
Definition StructureType_keys (self : ref) : M (list string) :=
  o <-- get_obj self ;; ret (o_keys o).

(** The value of [x.data]: what a variable or a sequence holds, or the list
    of the data of the children of another container. *)
Inductive datum : Type :=
  | Held (d : option data)
  | Gathered (items : list datum).

(** [x.data]: a plain attribute on a [BaseType], [SequenceType._get_data] on
    a sequence, [StructureType._get_data] on the other containers. *)
Fixpoint get_data (fuel : nat) (self : ref) : M datum :=
  match fuel with
  | O => diverge
  | S fuel' =>
      o <-- get_obj self ;;
      match o_class o with
      | BaseType | SequenceType => ret (Held (o_data o))
      | _ =>
          items <-- map_M (fun key =>
                      child <-- child_of self key ;; get_data fuel' child)
                    (children_keys o) ;;
          ret (Gathered items)
      end
  end.

(** *** The properties of [GridType] *)

(** [GridType.array]: [self[self.keys()[0]]]. *)
Definition GridType_array (fuel : nat) (self : ref) : M value :=
  keys <-- StructureType_keys self ;;
  match keys with
  | [] => raise IndexError
  | key :: _ => getitem fuel self (OStr key)
  end.

(** [d[key] = v] on an [OrderedDict]: a key that is there keeps its place. *)
Fixpoint od_set {V : Type} (key : string) (v : V) (d : list (string * V))
  : list (string * V) :=
  match d with
  | [] => [(key, v)]
  | (k, w) :: d' =>
      if String.eqb key k then (k, v) :: d' else (k, w) :: od_set key v d'
  end.

(** [OrderedDict(pairs)] *)
Definition OrderedDict {V : Type} (pairs : list (string * V))
  : list (string * V) :=
  fold_left (fun d '(key, v) => od_set key v d) pairs [].

(** [GridType.maps]: [OrderedDict((k, self[k]) for k in self.keys()[1:])]. *)
Definition GridType_maps (fuel : nat) (self : ref) : M (list (string * value)) :=
  keys <-- StructureType_keys self ;;
  pairs <-- map_M (fun k => v <-- getitem fuel self (OStr k) ;; ret (k, v))
              (drop 1 keys) ;;
  ret (OrderedDict pairs).

(** [GridType.dimensions]: [tuple(self.keys()[1:])]. *)
Definition GridType_dimensions (self : ref) : M (list string) :=
  keys <-- StructureType_keys self ;; ret (drop 1 keys).

(** *** [x.k] *)

(** [d.dtype] and [d.shape] are the data's own, like the three operations of
    [ArrayLike]: a parameter of the model. *)
Variable data_attribute : data -> string -> outcome (pyobj data).

(** Where the lookup of an attribute finds a name: in the class statement
    of one of the five classes, in that of [DapType], or in [object]. *)
Inductive owner : Type :=
  | In_class (c : class)
  | In_DapType
  | In_object.

(** The names that the class statements bind, in the order of the source. *)
Definition DapType_names : list string :=
  ["__init__"; "__repr__"; "_set_id"; "_get_id"; "id"; "__getattr__";
   "children"].

Definition class_names (c : class) : list string :=
  match c with
  | BaseType =>
      ["__init__"; "__repr__"; "dtype"; "shape"; "clone"; "__eq__"; "__ne__";
       "__ge__"; "__le__"; "__gt__"; "__lt__"; "__getitem__"; "__len__";
       "__iter__"]
  | StructureType =>
      ["__init__"; "__repr__"; "__contains__"; "__getattr__"; "__iter__";
       "children"; "__setitem__"; "__getitem__"; "__delitem__"; "keys";
       "_get_data"; "_set_data"; "data"; "clone"]
  | DatasetType => ["__setitem__"; "_set_id"]
  | SequenceType =>
      ["__init__"; "_set_data"; "_get_data"; "data"; "__setitem__"; "__len__";
       "__iter__"; "__getitem__"; "clone"]
  | GridType => ["__repr__"; "__getitem__"; "array"; "maps"; "dimensions"]
  end.

(** What Python binds in every class statement, and in the first one of a
    hierarchy. *)
Definition statement_names : list string := ["__module__"; "__doc__"].
Definition root_names : list string := ["__dict__"; "__weakref__"].

(** The attributes of [object] in Python 2.7. *)
Definition object_names : list string :=
  ["__class__"; "__delattr__"; "__doc__"; "__format__"; "__getattribute__";
   "__hash__"; "__init__"; "__new__"; "__reduce__"; "__reduce_ex__";
   "__repr__"; "__setattr__"; "__sizeof__"; "__str__"; "__subclasshook__"].

Definition bound_names (w : owner) : list string :=
  match w with
  | In_class c => class_names c ++ statement_names
  | In_DapType => DapType_names ++ statement_names ++ root_names
  | In_object => object_names
  end.

(** The classes in the order in which the lookup visits them. *)
Definition mro (c : class) : list owner :=
  match c with
  | BaseType => [In_class BaseType; In_DapType; In_object]
  | StructureType => [In_class StructureType; In_DapType; In_object]
  | c => [In_class c; In_class StructureType; In_DapType; In_object]
  end.

(** The first class of that order that binds [k]. *)
Definition defining_class (c : class) (k : string) : option owner :=
  List.find (fun w => key_in k (bound_names w)) (mro c).

(** The names that a class binds to a [property]. *)
Definition is_property (w : owner) (k : string) : bool :=
  match w with
  | In_DapType => String.eqb k "id"
  | In_class BaseType => key_in k ["dtype"; "shape"]
  | In_class StructureType | In_class SequenceType => String.eqb k "data"
  | In_class GridType => key_in k ["array"; "maps"; "dimensions"]
  | _ => false
  end.

(** The attributes that the constructors set on the instance. *)
Definition instance_names (c : class) : list string :=
  ["name"; "attributes"; "_id"]
  ++ match c with
     | BaseType => ["data"; "dimensions"]
     | SequenceType => ["_keys"; "_dict"; "_data"]
     | _ => ["_keys"; "_dict"]
     end.

(** Whether the ordinary lookup finds [k] on a node of class [c], so that
    [__getattr__] is not asked. *)
Definition ordinary (c : class) (k : string) : bool :=
  match defining_class c k with
  | Some _ => true
  | None => key_in k (instance_names c)
  end.

(** What the ordinary lookup returns: a string ([name], [id]), the metadata,
    a list of names ([_keys], [dimensions]), the map of the children, data,
    a child ([array]), the maps of a grid, an attribute of the data
    ([dtype], [shape]), or what the class [w] binds to [k], bound to the
    node when it is a function. *)
Inductive member : Type :=
  | Text (s : string)
  | Attributes (m : gmap string (pyobj data))
  | Names (names : list string)
  | Bindings (d : gmap string ref)
  | Datum (d : datum)
  | Part (v : value)
  | Parts (maps : list (string * value))
  | Of_data (v : pyobj data)
  | Of_class (w : owner) (k : string).

(** The value of the instance attribute [k], [k] being one of
    [instance_names]. *)
Definition instance_attribute (o : obj) (k : string) : member :=
  if String.eqb k "name" then Text (o_name o)
  else if String.eqb k "attributes" then Attributes (o_attributes o)
  else if String.eqb k "_id" then Text (o_id o)
  else if String.eqb k "_keys" then Names (o_keys o)
  else if String.eqb k "_dict" then Bindings (o_dict o)
  else if String.eqb k "dimensions" then Names (o_dimensions o)
  else Datum (Held (o_data o)).

(** The getter of the property that the class [w] binds to [k]:
    [DapType._get_id]; [self.data.dtype] and [self.data.shape] of
    [BaseType]; the three properties of [GridType]; [_get_data] of
    [StructureType] and of [SequenceType]. *)
Definition property_get (fuel : nat) (self : ref) (w : owner) (k : string)
  : M member :=
  match w with
  | In_DapType => o <-- get_obj self ;; ret (Text (o_id o))
  | In_class BaseType =>
      o <-- get_obj self ;;
      match o_data o with
      | Some d => v <-- lift (data_attribute d k) ;; ret (Of_data v)
      | None => raise AttributeError
      end
  | In_class GridType =>
      if String.eqb k "array"
      then v <-- GridType_array fuel self ;; ret (Part v)
      else if String.eqb k "maps"
           then m <-- GridType_maps fuel self ;; ret (Parts m)
           else d <-- GridType_dimensions self ;; ret (Names d)
  | _ => d <-- get_data fuel self ;; ret (Datum d)
  end.

(** What [x.k] evaluates to: an attribute of [x] itself, or what
    [__getattr__] returns. *)
Inductive looked : Type :=
  | Own (m : member)
  | Hooked (a : attribute).

(** An [AttributeError] that leaves the ordinary lookup, also out of the
    getter of a property, makes Python call [__getattr__]. *)
Definition or_hook {A : Type} (lookup hook : M A) : M A :=
  fun h =>
    match lookup h with
    | (Raise AttributeError, h') => hook h'
    | r => r
    end.

(** [x.k]: a property of the class comes first, then the attributes of the
    instance, then whatever else the classes bind, and [__getattr__] when
    none of them has the name. *)
Definition getattr (fuel : nat) (self : ref) (k : string) : M looked :=
  o <-- get_obj self ;;
  let hook := a <-- getattr_hook fuel self k ;; ret (Hooked a) in
  match defining_class (o_class o) k with
  | Some w =>
      if is_property w k
      then or_hook (m <-- property_get fuel self w k ;; ret (Own m)) hook
      else if key_in k (instance_names (o_class o))
           then ret (Own (instance_attribute o k))
           else ret (Own (Of_class w k))
  | None =>
      if key_in k (instance_names (o_class o))
      then ret (Own (instance_attribute o k))
      else hook
  end.

(** *** Vocabulary for the properties *)

(** [m] keeps [P]: whatever [m] does, a heap with [P] is left with [P]. *)
Definition keeps {A : Type} (P : heap -> Prop) (m : M A) : Prop :=
  forall h, P h -> P (snd (m h)).

(** Two heaps that differ in ids only. *)
Definition same_but_ids (h h' : heap) : Prop :=
  with_id EmptyString <$> h' = with_id EmptyString <$> h.

(** [r] is the root of a tree of at most [depth] levels whose nodes are
    [nodes]: the children of a node are bound in its map, and no node is
    reached twice. *)
Fixpoint tree (depth : nat) (h : heap) (r : ref) (nodes : list ref) : Prop :=
  match depth with
  | O => False
  | S depth' =>
      exists (o : obj) (parts : list (list ref)),
        h !! r = Some o /\ nodes = r :: concat parts /\ List.NoDup nodes
        /\ Forall2 (fun key part =>
                      exists c, o_dict o !! key = Some c /\ tree depth' h c part)
                   (children_keys o) parts
  end.

(** Below [r], down to [depth] levels, the id of a node is the id of its
    parent, a dot, and its own name. *)
Fixpoint ids_follow (depth : nat) (h : heap) (r : ref) : Prop :=
  match depth with
  | O => True
  | S depth' =>
      exists o : obj,
        h !! r = Some o
        /\ Forall (fun key =>
                     exists (c : ref) (oc : obj),
                       o_dict o !! key = Some c /\ h !! c = Some oc
                       /\ o_id oc = o_id o ++ "." ++ o_name oc
                       /\ ids_follow depth' h c)
                  (children_keys o)
  end.

(** [c] is the node reached from [r] by going down through children whose
    names are [names], one after the other. *)
Fixpoint below (h : heap) (r : ref) (names : list string) (c : ref) : Prop :=
  match names with
  | [] => c = r
  | name :: names' =>
      exists (o : obj) (key : string) (child : ref) (oc : obj),
        h !! r = Some o /\ In key (children_keys o)
        /\ o_dict o !! key = Some child /\ h !! child = Some oc
        /\ o_name oc = name /\ below h child names' c
  end.

(** [.n1.n2...] for the names [n1], [n2], ... *)
Fixpoint dotted (names : list string) : string :=
  match names with
  | [] => EmptyString
  | name :: names' => ("." ++ name ++ dotted names')%string
  end.

Definition is_name (key : pyobj data) : bool :=
  match key with
  | OStr _ => true
  | _ => false
  end.

(** [d[index]] when it returns. *)
Definition indexed (d : option data) (index : pyobj data) : option data :=
  match d with
  | Some d => match data_getitem d index with
              | Ok e => Some e
              | _ => None
              end
  | None => None
  end.

(** What child [i] of [g[key]] holds, [oc] being child [i] of [g]: its data
    indexed by the [i]-th of [slices], or its data as they are when there
    are fewer slices. *)
Definition grid_child_data (slices : list (pyobj data)) (i : nat) (oc : obj)
  : option data :=
  match slices !! i with
  | Some index => indexed (o_data oc) index
  | None => o_data oc
  end.

(** [kid], a reference with the object it refers to in [h], is a variable
    that the container [og] binds under its name, a name that [quote]
    leaves as it is. *)
Definition variable_of (h : heap) (og : obj) (kid : ref * obj) : Prop :=
  h !! kid.1 = Some kid.2 /\ o_class kid.2 = BaseType
  /\ o_dict og !! o_name kid.2 = Some kid.1
  /\ quote (o_name kid.2) = o_name kid.2.

(** The copy that [BaseType.clone] makes of [oc], once it is attached to a
    container of id [id] and holds [d]. *)
Definition copy_of (id : string) (oc : obj) (d : option data) : obj :=
  Obj BaseType (o_name oc) (∅ ∪ o_attributes oc) (id ++ "." ++ o_name oc)
      [] ∅ d (o_dimensions oc).

(** [attach] for each of [kids], bound to the references from [first] on. *)
Fixpoint attach_all (kids : list (ref * obj)) (first : ref) (out : obj) : obj :=
  match kids with
  | [] => out
  | kid :: kids' => attach_all kids' (S first) (attach (o_name kid.2) first out)
  end.

(** The copies of [kids] after the loop over the slices. *)
Fixpoint sliced_copies (id : string) (kids : list (ref * obj))
    (slices : list (pyobj data)) : list obj :=
  match kids with
  | [] => []
  | kid :: kids' =>
      match slices with
      | [] => copy_of id kid.2 (o_data kid.2) :: sliced_copies id kids' []
      | index :: slices' =>
          copy_of id kid.2 (indexed (o_data kid.2) index)
          :: sliced_copies id kids' slices'
      end
  end.

(** The objects from [n] on refer to objects from [n] on only. *)
Definition closed_above (n : nat) (h : heap) : Prop :=
  forall (r : ref) (o : obj) (key : string) (c : ref),
    h !! r = Some o -> (n <= r)%nat -> o_dict o !! key = Some c -> (n <= c)%nat.

(** [h] is [old] followed by new objects, which refer to new objects
    only. *)
Definition extends (old h : heap) : Prop :=
  take (length old) h = old /\ closed_above (length old) h.

(** Run on a heap that extends [old], [m] leaves a heap that extends [old],
    whether it returns or not, and what it returns satisfies [Q]. *)
Definition builds {A : Type} (old : heap) (Q : A -> Prop) (m : M A) : Prop :=
  forall h, extends old h ->
            extends old (snd (m h)) /\ forall a, fst (m h) = Ok a -> Q a.








End Tree.

Notation "x <-- m ;; k" := (bind m (fun x => k))
  (at level 100, m at next level, right associativity).

(** Modelled from the spec: [pydap.lib.quote] is not among the sources.  The
    spec has node names percent-escaped by the same reversible scheme as the
    path segments of a constraint expression, which the parser quotes with
    [urllib.quote]. *)
Definition lib_quote : string -> string := PyStr.quote.

End Model.

(** ** Arrays to put in the variables *)

(** A small model of the Numpy values of the docstrings: n-dimensional
    arrays as nested rows, record arrays as a list of field names and rows of
    one value per field.  It is one instance of [ArrayLike]; the model of
    the tree does not depend on it. *)
Module Arrays.
Import Parsers Model.

Inductive cell : Type :=
  | CInt (z : Z)
  | CBool (b : bool)
  | CStr (s : string)
  (** a decimal number, [digits] times ten to the minus [places] *)
  | CDec (digits : Z) (places : nat).

Inductive ndarray : Type :=
  | Scalar (c : cell)
  | Array (items : list ndarray)
  | Table (fields : list string) (rows : list (list ndarray))
  | Row (fields : list string) (values : list ndarray).

(** The indices that a slice selects in a sequence of [len] items, as
    [slice.indices] and [range] compute them. *)
Definition slice_indices (sl : pyslice) (len : nat) : outcome (list nat) :=
  let n := Z.of_nat len in
  let step := default 1 (step sl) in
  if step =? 0 then Raise ValueError
  else if 0 <? step then
    let norm x := if x <? 0 then Z.max (x + n) 0 else Z.min x n in
    let start := match start sl with None => 0 | Some x => norm x end in
    let stop := match stop sl with None => n | Some x => norm x end in
    let count := if start <? stop then (stop - start + step - 1) / step else 0 in
    Ok (map (fun i => Z.to_nat (start + Z.of_nat i * step))
            (seq 0 (Z.to_nat count)))
  else
    let norm x := if x <? 0 then Z.max (x + n) (-1) else Z.min x (n - 1) in
    let start := match start sl with None => n - 1 | Some x => norm x end in
    let stop := match stop sl with None => -1 | Some x => norm x end in
    let count := if stop <? start then (start - stop - step - 1) / (- step) else 0 in
    Ok (map (fun i => Z.to_nat (start + Z.of_nat i * step))
            (seq 0 (Z.to_nat count))).

(** [items[sl]] *)
Definition pick {A : Type} (sl : pyslice) (items : list A) : outcome (list A) :=
  indices <~ slice_indices sl (length items) ;;
  Ok (omap (fun i => items !! i) indices).

(** [items[i]], a negative [i] counting from the end. *)
Definition nth_item {A : Type} (i : Z) (items : list A) : outcome A :=
  let n := Z.of_nat (length items) in
  let j := if i <? 0 then i + n else i in
  if (j <? 0) || (n <=? j) then Raise IndexError
  else match items !! Z.to_nat j with
       | Some x => Ok x
       | None => Raise IndexError
       end.

Definition index_int (a : ndarray) (i : Z) : outcome ndarray :=
  match a with
  | Array items => nth_item i items
  | Table fields rows => row <~ nth_item i rows ;; Ok (Row fields row)
  | Row _ values => nth_item i values
  | Scalar _ => Raise IndexError
  end.

Definition index_slice (a : ndarray) (sl : pyslice) : outcome ndarray :=
  match a with
  | Array items => picked <~ pick sl items ;; Ok (Array picked)
  | Table fields rows => picked <~ pick sl rows ;; Ok (Table fields picked)
  | _ => Raise IndexError
  end.

(** [a[k0, k1, ...]]: one integer or slice per axis, from the first axis
    on. *)
Fixpoint index_tuple (keys : list (pyobj ndarray)) (a : ndarray)
  : outcome ndarray :=
  match keys with
  | [] => Ok a
  | OInt i :: keys' => x <~ index_int a i ;; index_tuple keys' x
  | OSlice sl :: keys' =>
      match a with
      | Array items =>
          picked <~ pick sl items ;;
          rows <~ traverse (index_tuple keys') picked ;;
          Ok (Array rows)
      | Table fields rows =>
          match keys' with
          | [] => picked <~ pick sl rows ;; Ok (Table fields picked)
          | _ :: _ => Raise IndexError
          end
      | _ => Raise IndexError
      end
  | _ => Raise IndexError
  end.

Definition mask_bit (a : ndarray) : outcome bool :=
  match a with
  | Scalar (CBool b) => Ok b
  | _ => Raise IndexError
  end.

Definition select_by {A : Type} (bits : list bool) (items : list A) : list A :=
  map snd (List.filter fst (zip bits items)).

(** [a[mask]] for an array of booleans as long as [a]. *)
Definition index_mask (a : ndarray) (mask : list ndarray) : outcome ndarray :=
  bits <~ traverse mask_bit mask ;;
  match a with
  | Array items =>
      if Nat.eqb (length bits) (length items)
      then Ok (Array (select_by bits items)) else Raise IndexError
  | Table fields rows =>
      if Nat.eqb (length bits) (length rows)
      then Ok (Table fields (select_by bits rows)) else Raise IndexError
  | _ => Raise IndexError
  end.

Fixpoint position (name : string) (fields : list string) : option nat :=
  match fields with
  | [] => None
  | f :: fields' =>
      if String.eqb name f then Some O
      else match position name fields' with
           | Some n => Some (S n)
           | None => None
           end
  end.

(** The value of field [name] in a row. *)
Definition field_of (fields : list string) (name : string)
    (row : list ndarray) : outcome ndarray :=
  match position name fields with
  | Some n => match row !! n with
              | Some v => Ok v
              | None => Raise ValueError
              end
  | None => Raise ValueError
  end.

Definition field_name (k : pyobj ndarray) : outcome string :=
  match k with
  | OStr s => Ok s
  | _ => Raise IndexError
  end.

(** [a[name]] and [a[[name, ...]]] on a record array. *)
Definition index_field (a : ndarray) (name : string) : outcome ndarray :=
  match a with
  | Table fields rows =>
      column <~ traverse (field_of fields name) rows ;; Ok (Array column)
  | Row fields values => field_of fields name values
  | _ => Raise IndexError
  end.

Definition index_fields (a : ndarray) (names : list string) : outcome ndarray :=
  match a with
  | Table fields rows =>
      if forallb (fun name => bool_decide (is_Some (position name fields))) names
      then
        rows' <~ traverse (fun row =>
                   traverse (fun name => field_of fields name row) names) rows ;;
        Ok (Table names rows')
      else Raise ValueError
  | _ => Raise IndexError
  end.

Definition array_getitem (a : ndarray) (index : pyobj ndarray) : outcome ndarray :=
  match index with
  | OInt i => index_int a i
  | OSlice sl => index_slice a sl
  | OTuple keys => index_tuple keys a
  | OStr name => index_field a name
  | OList names => names' <~ traverse field_name names ;; index_fields a names'
  | OData (Array mask) => index_mask a mask
  | _ => Raise IndexError
  end.

(** [a > other], element by element. *)
Fixpoint array_gt (other : Z) (a : ndarray) : outcome ndarray :=
  match a with
  | Scalar (CInt z) => Ok (Scalar (CBool (other <? z)))
  | Array items => rows <~ traverse (array_gt other) items ;; Ok (Array rows)
  | _ => Raise TypeError
  end.

Definition array_iter (a : ndarray) : outcome (list ndarray) :=
  match a with
  | Array items => Ok items
  | Table fields rows => Ok (map (Row fields) rows)
  | Row _ values => Ok values
  | Scalar _ => Raise TypeError
  end.

#[export] Instance ndarray_like : ArrayLike ndarray := {
  data_getitem := array_getitem;
  data_gt := fun a other =>
    match other with
    | OInt z => array_gt z a
    | _ => Raise TypeError
    end;
  data_iter := array_iter
}.

End Arrays.

(** ** Trees and sequences to run the model on *)

Module Scenes.
Import Parsers Model Arrays.

Section Generic.

Context {data : Type} `{ArrayLike data}.
Variable quote : string -> string.

Definition id_of (r : ref) : @M data string :=
  o <-- get_obj r ;; ret (o_id o).

(** [D = DatasetType("D"); S = StructureType("S"); B = BaseType("B")] *)
Definition three_nodes : @M data (ref * ref * ref) :=
  d <-- new_container quote DatasetType "D" None ∅ ∅ ;;
  s <-- new_container quote StructureType "S" None ∅ ∅ ;;
  b <-- new_BaseType quote "B" None [] ∅ ∅ ;;
  ret (d, s, b).

(** [D["S"] = S; S["B"] = B], then the ids of [S] and [B]. *)
Definition nest_top_down (fuel : nat) : @M data (string * string) :=
  nodes <-- three_nodes ;;
  let '(d, s, b) := nodes in
  _ <-- setitem quote fuel d "S" s ;;
  _ <-- setitem quote fuel s "B" b ;;
  ids <-- id_of s ;; idb <-- id_of b ;; ret (ids, idb).

(** [S["B"] = B; D["S"] = S], then the ids of [S] and [B]. *)
Definition nest_bottom_up (fuel : nat) : @M data (string * string) :=
  nodes <-- three_nodes ;;
  let '(d, s, b) := nodes in
  _ <-- setitem quote fuel s "B" b ;;
  _ <-- setitem quote fuel d "S" s ;;
  ids <-- id_of s ;; idb <-- id_of b ;; ret (ids, idb).

(** [seq.index > n]: the attribute hook finds the child, the comparison goes
    to its data. *)
Definition child_above (fuel : nat) (seq : ref) (name : string) (n : Z)
  : @M data (pyobj data) :=
  a <-- getattr_hook quote fuel seq name ;;
  match a with
  | Child r => mask <-- BaseType_gt r (OInt n) ;; ret (OData mask)
  | Metadata _ => raise TypeError
  end.

(** [x[k1][k2]...], every result being a node. *)
Fixpoint index_chain (fuel : nat) (x : ref) (keys : list (pyobj data))
  : @M data ref :=
  match keys with
  | [] => ret x
  | k :: keys' =>
      v <-- getitem quote fuel x k ;;
      match v with
      | VNode r => index_chain fuel r keys'
      | VData _ => raise TypeError
      end
  end.

(** What is seen of a container: its keys, the value stored in the node
    itself (the rows of a sequence; nothing for a structure or a grid, whose
    data are those of their children), and the name and data of each child
    in the order of the keys. *)
Definition look (r : ref)
  : @M data (list string * option data * list (string * option data)) :=
  o <-- get_obj r ;;
  children <-- map_M (fun key =>
                 child <-- child_of r key ;;
                 c <-- get_obj child ;;
                 ret (o_name c, o_data c)) (o_keys o) ;;
  ret (o_keys o, o_data o, children).

End Generic.

(** *** The sequence of the docstring of [SequenceType] *)

Definition station (index : Z) (tenths : Z) (site : string) : list ndarray :=
  [Scalar (CInt index); Scalar (CDec tenths 1); Scalar (CStr site)].

Definition example_data : ndarray :=
  Table ["index"; "temperature"; "site"]
    [station 10 152 "Diamond_St"; station 11 131 "Blacktail_Loop";
     station 12 133 "Platinum_St"; station 13 121 "Kodiak_Trail"].

Section Sequence.

Variable quote : string -> string.

Definition example_sequence (fuel : nat) : @M ndarray ref :=
  seq <-- new_container quote SequenceType "example" None ∅ ∅ ;;
  index <-- new_BaseType quote "index" None [] ∅ ∅ ;;
  _ <-- setitem quote fuel seq "index" index ;;
  temperature <-- new_BaseType quote "temperature" None [] ∅ ∅ ;;
  _ <-- setitem quote fuel seq "temperature" temperature ;;
  site <-- new_BaseType quote "site" None [] ∅ ∅ ;;
  _ <-- setitem quote fuel seq "site" site ;;
  _ <-- set_data fuel seq (Some example_data) ;;
  ret seq.

Definition every_second : pyobj ndarray := OSlice (Slice None None (Some 2)).

Definition names_tuple (names : list string) : pyobj ndarray :=
  OTuple (map OStr names).

(** [seq[seq.index > 10][::2][names]] *)
Definition filter_then_select (fuel : nat) (names : list string) :=
  seq <-- example_sequence fuel ;;
  mask <-- child_above quote fuel seq "index" 10 ;;
  out <-- index_chain quote fuel seq [mask; every_second; names_tuple names] ;;
  look out.

(** [seq[names][seq.index > 10][::2]] *)
Definition select_then_filter (fuel : nat) (names : list string) :=
  seq <-- example_sequence fuel ;;
  mask <-- child_above quote fuel seq "index" 10 ;;
  out <-- index_chain quote fuel seq [names_tuple names; mask; every_second] ;;
  look out.

(** [seq[seq.index > 10][names][::2]] *)
Definition select_between (fuel : nat) (names : list string) :=
  seq <-- example_sequence fuel ;;
  mask <-- child_above quote fuel seq "index" 10 ;;
  out <-- index_chain quote fuel seq [mask; names_tuple names; every_second] ;;
  look out.

(** [seq[seq.index > 10][::2]] *)
Definition filter_only (fuel : nat) :=
  seq <-- example_sequence fuel ;;
  mask <-- child_above quote fuel seq "index" 10 ;;
  out <-- index_chain quote fuel seq [mask; every_second] ;;
  look out.

End Sequence.

(** The rows that [seq[seq.index > 10][::2]] is to keep. *)
Definition survivors : ndarray :=
  Table ["index"; "temperature"; "site"]
    [station 11 131 "Blacktail_Loop"; station 13 121 "Kodiak_Trail"].

(** What [look] is to see of a sequence that holds the fields [names] of
    [rows]. *)
Definition seen (rows : ndarray) (names : list string)
  : outcome (list string * option ndarray * list (string * option ndarray)) :=
  table <~ data_getitem rows (OList (map OStr names)) ;;
  columns <~ traverse (fun name =>
               column <~ data_getitem rows (OStr name) ;;
               Ok (name, Some column)) names ;;
  Ok (names, Some table, columns).

(** *** A grid: an array of shape (2, 3) and one map for each axis *)

Definition int_array (l : list Z) : ndarray :=
  Array (map (fun z => Scalar (CInt z)) l).

Definition rain_data : ndarray := Array [int_array [0; 1; 2]; int_array [3; 4; 5]].

Section Grid.

Variable quote : string -> string.

Definition rain_grid (fuel : nat) : @M ndarray ref :=
  rain <-- new_container quote GridType "rain" None ∅ ∅ ;;
  a <-- new_BaseType quote "rain" (Some rain_data) ["y"; "x"] ∅ ∅ ;;
  _ <-- setitem quote fuel rain "rain" a ;;
  y <-- new_BaseType quote "y" (Some (int_array [0; 1])) [] ∅
          {[ "units" := OStr "degrees_north" ]} ;;
  _ <-- setitem quote fuel rain "y" y ;;
  x <-- new_BaseType quote "x" (Some (int_array [0; 1; 2])) [] ∅
          {[ "units" := OStr "degrees_east" ]} ;;
  _ <-- setitem quote fuel rain "x" x ;;
  ret rain.

(** [rain[key]], as [look] sees it. *)
Definition rain_at (fuel : nat) (key : pyobj ndarray) :=
  rain <-- rain_grid fuel ;;
  out <-- index_chain quote fuel rain [key] ;;
  look out.

End Grid.

Definition upto (n : Z) : pyobj ndarray := OSlice (Slice (Some 0) (Some n) None).

(** *** Heaps to try the general properties on *)

(** The object that [r] refers to in [h]. *)
Definition object_at (h : list (@obj ndarray)) (r : ref) : @obj ndarray :=
  default (Obj BaseType EmptyString ∅ EmptyString [] ∅ None []) (h !! r).

(** The sequence of the docstring and, beside it, one more variable named
    [index]: the sequence is object 0, its children are 1, 2 and 3, the new
    variable is 4. *)
Definition station_heap : list (@obj ndarray) :=
  snd ((seq <-- example_sequence lib_quote 3 ;;
        new_BaseType lib_quote "index" None [] ∅ ∅) []).

(** A structure [s] (object 0) and a variable made as [BaseType("a b")]
    (object 1), whose name is the quoted ["a%20b"]. *)
Definition spaced_heap : list (@obj ndarray) :=
  snd ((s <-- new_container lib_quote StructureType "s" None ∅ ∅ ;;
        new_BaseType lib_quote "a b" None [] ∅ ∅) []).

(** A structure (object 0) with a child [units] (object 1) and an entry
    [units] in its metadata. *)
Definition shadowed_heap : list (@obj ndarray) :=
  snd ((s <-- new_container lib_quote StructureType "s" None
                {[ "units" := OStr "m/s" ]} ∅ ;;
        u <-- new_BaseType lib_quote "units" None [] ∅ ∅ ;;
        setitem lib_quote 2 s "units" u) []).

(** A structure [s] (object 0) with a child named [id] (object 1) and an
    entry [id] in its metadata. *)
Definition named_id_heap : list (@obj ndarray) :=
  snd ((s <-- new_container lib_quote StructureType "s" None
                {[ "id" := OStr "metadata" ]} ∅ ;;
        x <-- new_BaseType lib_quote "id" None [] ∅ ∅ ;;
        setitem lib_quote 2 s "id" x) []).

(** The arrays of [Arrays] are given no [dtype] and no [shape]. *)
Definition no_attribute (d : ndarray) (k : string) : outcome (pyobj ndarray) :=
  Raise AttributeError.

(** [D = DatasetType("D")] (object 0), [P = StructureType("P")] (1) and,
    under [P], the structure [S] (2) that holds the structure [T] (3) that
    holds the variable [B] (4): [T["B"] = B; S["T"] = T; P["S"] = S]. *)
Definition moved_heap : list (@obj ndarray) :=
  snd ((d <-- new_container lib_quote DatasetType "D" None ∅ ∅ ;;
        p <-- new_container lib_quote StructureType "P" None ∅ ∅ ;;
        s <-- new_container lib_quote StructureType "S" None ∅ ∅ ;;
        t <-- new_container lib_quote StructureType "T" None ∅ ∅ ;;
        b <-- new_BaseType lib_quote "B" None [] ∅ ∅ ;;
        _ <-- setitem lib_quote 3 t "B" b ;;
        _ <-- setitem lib_quote 3 s "T" t ;;
        setitem lib_quote 3 p "S" s) []).

(** The grid [rain] (object 0) with its array and maps (1, 2 and 3). *)
Definition rain_heap : list (@obj ndarray) := snd (rain_grid lib_quote 2 []).

Definition rain_kids : list (ref * @obj ndarray) :=
  zip [1; 2; 3]%nat (drop 1 rain_heap).








(** Every way to name some of the three fields, in any order. *)
Definition selections : list (list string) :=
  [ ["index"]; ["temperature"]; ["site"];
    ["index"; "temperature"]; ["temperature"; "index"];
    ["index"; "site"]; ["site"; "index"];
    ["temperature"; "site"]; ["site"; "temperature"];
    ["index"; "temperature"; "site"]; ["index"; "site"; "temperature"];
    ["temperature"; "index"; "site"]; ["temperature"; "site"; "index"];
    ["site"; "index"; "temperature"]; ["site"; "temperature"; "index"] ].

End Scenes.



(** * Properties of the parsers *)

Module ParsersFacts.
Import PyStr Parsers Hyperslab.

(** ** The two worked queries *)

(** C1: [parse_ce] on ["a,b[0:2:9],c&a>1&b<2"] gives the three paths, [b]
    with the slice (0, 10, 2), and the two selection clauses; on
    ["mean(g,0)"] it keeps the call whole as one function token, with no
    selection. *)
Theorem parse_ce_examples :
  parse_ce "a,b[0:2:9],c&a>1&b<2"
  = Ok ([PathItem [("a", [])];
         PathItem [("b", [Slice (Some 0) (Some 10) (Some 2)])];
         PathItem [("c", [])]],
        ["a>1"; "b<2"])
  /\ parse_ce "mean(g,0)" = Ok ([FuncToken "mean(g,0)"], []).
Proof. split; vm_compute; reflexivity. Qed.

(** ** Strings: appending, slicing, stripping, splitting *)

#[local] Arguments String.append !s1 s2 / : simpl nomatch.
#[local] Arguments String.length !s / : simpl nomatch.

Lemma length_append (a b : string) :
  String.length (a ++ b) = (String.length a + String.length b)%nat.
Proof. induction a as [|c a IH]; simpl; [reflexivity | now rewrite IH]. Qed.

Lemma append_assoc (a b c : string) : (a ++ b) ++ c = a ++ (b ++ c).
Proof. induction a as [|x a IH]; simpl; [reflexivity | now rewrite IH]. Qed.

Lemma append_empty_r (a : string) : a ++ "" = a.
Proof. induction a as [|x a IH]; simpl; [reflexivity | now rewrite IH]. Qed.

Lemma substring_whole (s : string) : substring 0 (String.length s) s = s.
Proof. induction s as [|c s IH]; simpl; [reflexivity | now rewrite IH]. Qed.

Lemma slice_to_append (a b : string) : slice_to (String.length a) (a ++ b) = a.
Proof.
  unfold slice_to. induction a as [|c a IH]; simpl.
  - now destruct b.
  - now rewrite IH.
Qed.

Lemma slice_from_append (a b : string) :
  slice_from (String.length a) (a ++ b) = b.
Proof.
  unfold slice_from. rewrite length_append.
  replace (String.length a + String.length b - String.length a)%nat
    with (String.length b) by lia.
  induction a as [|c a IH]; simpl; [apply substring_whole | exact IH].
Qed.

Lemma all_chars_append p (a b : string) :
  all_chars p (a ++ b) = all_chars p a && all_chars p b.
Proof.
  induction a as [|c a IH]; simpl; [reflexivity |].
  now rewrite IH, andb_assoc.
Qed.

Lemma all_chars_weaken (p q : ascii -> bool) (s : string) :
  (forall c, p c = true -> q c = true) ->
  all_chars p s = true -> all_chars q s = true.
Proof.
  intros Hpq. induction s as [|c s IH]; simpl; [reflexivity |].
  intros [Hc Hs]%andb_true_iff. rewrite (Hpq _ Hc). simpl. auto.
Qed.

Lemma contains_all_chars (c : ascii) (s : string) :
  all_chars (fun d => negb (Ascii.eqb c d)) s = true -> contains c s = false.
Proof.
  induction s as [|d s IH]; simpl; [reflexivity |].
  intros [Hd Hs]%andb_true_iff. apply negb_true_iff in Hd.
  rewrite Hd. simpl. auto.
Qed.

Lemma find_append (c : ascii) (a b : string) :
  contains c a = false ->
  find c (a ++ String c b) = Z.of_nat (String.length a).
Proof.
  induction a as [|d a IH]; simpl.
  - now rewrite Ascii.eqb_refl.
  - intros [Hd Ha]%orb_false_iff. rewrite Hd, (IH Ha).
    destruct (Z.ltb_spec (Z.of_nat (String.length a)) 0); lia.
Qed.

Lemma lstrip_none p (s : string) :
  all_chars (fun c => negb (p c)) s = true -> lstrip p s = s.
Proof.
  destruct s as [|c s]; simpl; [reflexivity |].
  intros [Hc _]%andb_true_iff. apply negb_true_iff in Hc. now rewrite Hc.
Qed.

Lemma rstrip_none p (s : string) :
  all_chars (fun c => negb (p c)) s = true -> rstrip p s = s.
Proof.
  induction s as [|c s IH]; simpl; [reflexivity |].
  intros [Hc Hs]%andb_true_iff. apply negb_true_iff in Hc.
  rewrite (IH Hs), Hc. now destruct s.
Qed.

Lemma rstrip_last p (s : string) (c : ascii) :
  p c = true -> rstrip p (s ++ String c "") = rstrip p s.
Proof.
  intros Hc. induction s as [|d s IH]; simpl.
  - now rewrite Hc.
  - now rewrite IH.
Qed.

Lemma strip_none p (s : string) :
  all_chars (fun c => negb (p c)) s = true -> strip p s = s.
Proof.
  intros H. unfold strip. rewrite (rstrip_none _ _ H). now apply lstrip_none.
Qed.

(** A bracket group loses exactly its two brackets. *)
Lemma strip_brackets (body : string) :
  all_chars (fun c => negb (is_bracket c)) body = true ->
  strip is_bracket ("[" ++ body ++ "]") = body.
Proof.
  intros H. unfold strip.
  change ("[" ++ body ++ "]") with (String "[" (body ++ String "]" "")).
  replace (rstrip is_bracket (String "[" (body ++ String "]" "")))
    with (rstrip is_bracket (String "[" body)).
  - simpl. rewrite (rstrip_none _ _ H).
    destruct body as [|c body]; [reflexivity |].
    change (lstrip is_bracket (String "[" (String c body)))
      with (lstrip is_bracket (String c body)).
    now apply lstrip_none.
  - change (String "[" (body ++ String "]" ""))
      with ((String "[" body) ++ String "]" "").
    now rewrite rstrip_last.
Qed.

Lemma split_none (sep : ascii) (s : string) :
  contains sep s = false -> split sep s = [s].
Proof.
  induction s as [|c s IH]; simpl; [reflexivity |].
  rewrite Ascii.eqb_sym. intros [Hc Hs]%orb_false_iff.
  now rewrite Hc, (IH Hs).
Qed.

Lemma split_append (sep : ascii) (a b : string) :
  contains sep a = false ->
  split sep (a ++ String sep b) = a :: split sep b.
Proof.
  induction a as [|c a IH]; simpl.
  - now rewrite Ascii.eqb_refl.
  - rewrite Ascii.eqb_sym. intros [Hc Ha]%orb_false_iff.
    now rewrite Hc, (IH Ha).
Qed.

(** ** Decimal numerals and [int] *)

Lemma uint_digits (d : Decimal.uint) :
  all_chars is_digit (NilEmpty.string_of_uint d) = true.
Proof. induction d; simpl; auto. Qed.

Lemma decimal_digits (n : nat) : all_chars is_digit (decimal n) = true.
Proof.
  unfold decimal, NilZero.string_of_uint.
  destruct (Nat.to_uint n) eqn:E; try apply (uint_digits (Nat.to_uint n)) ||
    (rewrite <- E; apply uint_digits).
  reflexivity.
Qed.

Lemma decimal_nonempty (n : nat) : nonempty (decimal n) = true.
Proof.
  unfold decimal, NilZero.string_of_uint.
  destruct (Nat.to_uint n); reflexivity.
Qed.

Lemma digits_value_uint (d : Decimal.uint) (acc : nat) :
  digits_value (Z.of_nat acc) (NilEmpty.string_of_uint d)
  = Some (Z.of_nat (Nat.of_uint_acc d acc)).
Proof.
  revert acc. induction d; intros acc; simpl; [reflexivity | ..];
    rewrite <- IHd; f_equal; rewrite Nat.tail_mul_spec;
    unfold digit_value; simpl; lia.
Qed.

Lemma digits_value_decimal (n : nat) :
  digits_value 0 (decimal n) = Some (Z.of_nat n).
Proof.
  unfold decimal.
  rewrite <- (DecimalNat.Unsigned.of_to n) at 2.
  unfold NilZero.string_of_uint, Nat.of_uint.
  destruct (Nat.to_uint n) eqn:E; [reflexivity | ..];
    rewrite <- E; apply (digits_value_uint _ 0).
Qed.

Lemma digit_not_space (c : ascii) : is_digit c = true -> negb (is_space c) = true.
Proof.
  unfold is_digit, is_space. intros [H1 H2]%andb_true_iff.
  apply Nat.leb_le in H1, H2. apply negb_true_iff, orb_false_iff. split.
  - apply Nat.eqb_neq. lia.
  - apply andb_false_iff. right. apply Nat.leb_gt. lia.
Qed.

Lemma digit_not_sign (c : ascii) :
  is_digit c = true -> Ascii.eqb c "+" = false /\ Ascii.eqb c "-" = false.
Proof.
  intros H. split; apply Ascii.eqb_neq; intros ->; vm_compute in H; discriminate.
Qed.

(** [int] reads a decimal numeral back as the number it writes. *)
Lemma int_decimal (n : nat) : int (decimal n) = Ok (Z.of_nat n).
Proof.
  unfold int.
  rewrite strip_none
    by (eapply all_chars_weaken; [apply digit_not_space | apply decimal_digits]).
  pose proof (decimal_digits n) as Hd. pose proof (decimal_nonempty n) as Hn.
  pose proof (digits_value_decimal n) as Hv.
  destruct (decimal n) as [|c s]; [discriminate |].
  simpl in Hd. apply andb_true_iff in Hd as [Hc _].
  destruct (digit_not_sign c Hc) as [-> ->].
  rewrite Hv. f_equal. lia.
Qed.

Lemma digit_not_bracket (c : ascii) :
  is_digit c = true -> negb (is_bracket c) = true.
Proof.
  intros H. apply negb_true_iff, orb_false_iff.
  split; apply Ascii.eqb_neq; intros ->; vm_compute in H; discriminate.
Qed.

Lemma digit_not_colon (c : ascii) :
  is_digit c = true -> negb (Ascii.eqb ":" c) = true.
Proof.
  intros H. apply negb_true_iff, Ascii.eqb_neq.
  intros <-; vm_compute in H; discriminate.
Qed.

Lemma decimal_no_colon (n : nat) : contains ":" (decimal n) = false.
Proof.
  apply contains_all_chars.
  eapply all_chars_weaken; [apply digit_not_colon | apply decimal_digits].
Qed.

Lemma decimal_opt_no_colon (o : option nat) :
  contains ":" (decimal_opt o) = false.
Proof. destruct o; [apply decimal_no_colon | reflexivity]. Qed.

Lemma decimal_opt_no_bracket (o : option nat) :
  all_chars (fun c => negb (is_bracket c)) (decimal_opt o) = true.
Proof.
  destruct o; [| reflexivity].
  eapply all_chars_weaken; [apply digit_not_bracket | apply decimal_digits].
Qed.

Lemma body_no_bracket (g : group) :
  all_chars (fun c => negb (is_bracket c)) (body g) = true.
Proof.
  pose proof (fun n => decimal_opt_no_bracket (Some n)) as Hd. simpl in Hd.
  destruct g; simpl; rewrite ?all_chars_append; simpl;
    rewrite ?all_chars_append; simpl; rewrite ?Hd, ?decimal_opt_no_bracket;
    reflexivity.
Qed.

Lemma stop_of_decimal_opt (o : option nat) :
  stop_of (decimal_opt o) = Ok (exclusive o).
Proof.
  destruct o as [n|]; [| reflexivity].
  unfold stop_of. simpl. now rewrite decimal_nonempty, int_decimal.
Qed.

(** ** One bracket group *)

Lemma parse_dimension_render (g : group) :
  parse_dimension (render g) = Ok (slice_of g).
Proof.
  unfold parse_dimension, render.
  rewrite strip_brackets by apply body_no_bracket.
  destruct g as [|i|a o|a b o]; simpl.
  - reflexivity.
  - rewrite split_none by apply decimal_no_colon.
    now rewrite decimal_nonempty, int_decimal.
  - rewrite split_append by apply decimal_no_colon.
    rewrite split_none by apply decimal_opt_no_colon.
    now rewrite int_decimal, stop_of_decimal_opt.
  - rewrite split_append by apply decimal_no_colon.
    rewrite split_append by apply decimal_no_colon.
    rewrite split_none by apply decimal_opt_no_colon.
    now rewrite !int_decimal, stop_of_decimal_opt.
Qed.

(** ** The splitting loop *)

Lemma body_no_close (g : group) : contains "]" ("[" ++ body g) = false.
Proof.
  apply contains_all_chars. change ("[" ++ body g) with (String "[" (body g)).
  cbn [all_chars]. change (negb ("]" =? "[")%char) with true. cbn [andb].
  eapply all_chars_weaken; [| apply body_no_bracket].
  intros c Hc. unfold is_bracket in Hc.
  apply negb_true_iff, orb_false_iff in Hc as [_ Hc].
  cbv beta. apply negb_true_iff. now rewrite Ascii.eqb_sym.
Qed.

Lemma render_split (g : group) (rest : string) :
  render g ++ rest = ("[" ++ body g) ++ String "]" rest.
Proof.
  unfold render. change ("[" ++ body g ++ "]") with (String "[" (body g ++ "]")).
  change ("[" ++ body g) with (String "[" (body g)). simpl.
  now rewrite append_assoc.
Qed.

Lemma render_length (g : group) :
  String.length (render g) = S (String.length ("[" ++ body g)).
Proof.
  rewrite <- (append_empty_r (render g)), render_split, length_append.
  simpl. lia.
Qed.

(** One turn of the loop cuts one group off the front. *)
Lemma split_dimensions_group (fuel : nat) (g : group) (rest : string)
    (dimensions : list string) :
  split_dimensions (S fuel) (render g ++ rest) dimensions
  = split_dimensions fuel rest ((dimensions ++ [render g])%list).
Proof.
  assert (Hr : Z.to_nat (find "]" (render g ++ rest) + 1)
               = String.length (render g)).
  { rewrite render_split, find_append by apply body_no_close.
    rewrite render_length. lia. }
  remember (render g ++ rest) as s eqn:Es.
  destruct s as [|c s].
  - exfalso. unfold render in Es. discriminate Es.
  - cbn [split_dimensions]. rewrite Hr, Es.
    now rewrite slice_from_append, slice_to_append.
Qed.

Lemma split_dimensions_render (gs : list group) :
  forall (fuel : nat) (dimensions : list string),
    (length gs <= fuel)%nat ->
    split_dimensions fuel (render_all gs) dimensions
    = Ok ((dimensions ++ map render gs)%list).
Proof.
  induction gs as [|g gs IH]; intros fuel dimensions Hfuel.
  - simpl. rewrite app_nil_r. now destruct fuel.
  - destruct fuel as [|fuel]; [simpl in Hfuel; lia |].
    cbn [render_all]. rewrite split_dimensions_group.
    rewrite IH by (simpl in Hfuel; lia).
    now rewrite <- app_assoc.
Qed.

Lemma render_all_length (gs : list group) :
  (length gs <= String.length (render_all gs))%nat.
Proof.
  induction gs as [|g gs IH]; [simpl; lia |].
  cbn [render_all List.length]. rewrite length_append, render_length. lia.
Qed.

(** Without a closing bracket the loop never ends, whatever the fuel. *)
Lemma split_dimensions_stuck (fuel : nat) (s : string)
    (dimensions : list string) :
  contains "]" s = false -> nonempty s = true ->
  split_dimensions fuel s dimensions = Diverge.
Proof.
  intros Hc Hn. revert dimensions.
  assert (Hf : find "]" s = -1).
  { clear Hn. induction s as [|c s IH]; simpl in *; [reflexivity |].
    apply orb_false_iff in Hc as [Hc Hs]. now rewrite Hc, (IH Hs). }
  induction fuel as [|fuel IH]; intros dimensions;
    destruct s as [|c s]; try discriminate; [reflexivity |].
  cbn [split_dimensions]. rewrite Hf. change (Z.to_nat (-1 + 1)) with O.
  replace (slice_from 0 (String c s)) with (String c s); [apply IH |].
  unfold slice_from. rewrite Nat.sub_0_r. symmetry. apply substring_whole.
Qed.

Lemma substring_length (s : string) :
  forall a n : nat,
    (String.length (substring a n s) <= String.length s - a)%nat.
Proof.
  induction s as [|c s IH]; intros [|a] [|n]; simpl; try lia.
  - specialize (IH 0%nat n). lia.
  - apply IH.
  - apply IH.
Qed.

Lemma find_nonneg (c : ascii) (s : string) :
  contains c s = true -> 0 <= find c s.
Proof.
  induction s as [|d s IH]; simpl; [discriminate |].
  destruct (Ascii.eqb c d); simpl; [lia |].
  intros H. specialize (IH H).
  destruct (Z.ltb_spec (find c s) 0); lia.
Qed.

(** With [len(hyperslab)] turns the loop has all the turns it can use: more
    fuel changes nothing. *)
Lemma split_dimensions_fuel (fuel : nat) :
  forall (fuel' : nat) (s : string) (dimensions : list string),
    (String.length s <= fuel)%nat -> (String.length s <= fuel')%nat ->
    split_dimensions fuel s dimensions = split_dimensions fuel' s dimensions.
Proof.
  induction fuel as [|fuel IH]; intros fuel' s dimensions H1 H2.
  - destruct s; [now destruct fuel' | simpl in H1; lia].
  - destruct s as [|c s]; [now destruct fuel' |].
    destruct (contains "]" (String c s)) eqn:Hc.
    + destruct fuel' as [|fuel']; [simpl in H2; lia |].
      cbn [split_dimensions].
      pose proof (find_nonneg _ _ Hc) as Hf.
      set (k := Z.to_nat (find "]" (String c s) + 1)).
      assert (Hk : (1 <= k)%nat) by (unfold k; lia).
      pose proof (substring_length (String c s) k
                    (String.length (String c s) - k)) as Hl.
      fold (slice_from k (String c s)) in Hl.
      apply IH; simpl in H1, H2, Hl; lia.
    + now rewrite !split_dimensions_stuck.
Qed.

(** ** The hyperslab parser on well-formed input *)

(** C2: every sequence of well-formed bracket groups parses to one triple
    per group, in order, the inclusive upper bound made exclusive: [[]]
    gives (None, None, None), [[i]] gives (i, i+1, None), [[start:stop]]
    gives (start, stop+1 or None, None) and [[start:step:stop]] gives
    (start, stop+1 or None, step); so ["[36]"], ["[1:2]"] and
    ["[1:2:6][][3:5:]"] give the triples of the docstring. *)
Theorem parse_hyperslab_well_formed :
  (forall gs : list group,
      parse_hyperslab (render_all gs) = Ok (map slice_of gs))
  /\ parse_hyperslab "[]" = Ok [Slice None None None]
  /\ (forall i : nat,
        parse_hyperslab ("[" ++ decimal i ++ "]")
        = Ok [Slice (Some (Z.of_nat i)) (Some (Z.of_nat i + 1)) None])
  /\ (forall (start : nat) (stop : option nat),
        parse_hyperslab ("[" ++ decimal start ++ ":" ++ decimal_opt stop ++ "]")
        = Ok [Slice (Some (Z.of_nat start)) (exclusive stop) None])
  /\ (forall (start step : nat) (stop : option nat),
        parse_hyperslab ("[" ++ decimal start ++ ":" ++ decimal step ++ ":"
                         ++ decimal_opt stop ++ "]")
        = Ok [Slice (Some (Z.of_nat start)) (exclusive stop)
                (Some (Z.of_nat step))])
  /\ parse_hyperslab "[36]" = Ok [Slice (Some 36) (Some 37) None]
  /\ parse_hyperslab "[1:2]" = Ok [Slice (Some 1) (Some 3) None]
  /\ parse_hyperslab "[1:2:6][][3:5:]"
     = Ok [Slice (Some 1) (Some 7) (Some 2); Slice None None None;
           Slice (Some 3) None (Some 5)].
Proof.
  assert (Hall : forall gs : list group,
             parse_hyperslab (render_all gs) = Ok (map slice_of gs)).
  { intros gs. unfold parse_hyperslab.
    rewrite split_dimensions_render by apply render_all_length.
    cbn [obind app]. induction gs as [|g gs IH]; [reflexivity |].
    cbn [map traverse]. rewrite parse_dimension_render, IH. reflexivity. }
  assert (Hone : forall g : group,
             parse_hyperslab (render g) = Ok [slice_of g]).
  { intros g. rewrite <- (append_empty_r (render g)). apply (Hall [g]). }
  split; [exact Hall |].
  split; [exact (Hone Full) |].
  split; [exact (fun i => Hone (Index i)) |].
  split.
  { intros a o. transitivity (parse_hyperslab (render (Range a o)));
      [| apply Hone].
    f_equal. unfold render. cbn [body]. now rewrite !append_assoc. }
  split.
  { intros a b o. transitivity (parse_hyperslab (render (Strided a b o)));
      [| apply Hone].
    f_equal. unfold render. cbn [body]. now rewrite !append_assoc. }
  repeat split; vm_compute; reflexivity.
Qed.

(** ** The hyperslab parser on malformed input *)

Lemma parse_dimension_many_fields (dim : string) :
  (3 < length (fields dim))%nat ->
  parse_dimension dim = Ok (Slice None None None).
Proof.
  unfold parse_dimension, fields.
  destruct (split ":" (strip is_bracket dim)) as [|t0 [|t1 [|t2 [|t3 ts]]]];
    simpl; intros H; try lia; reflexivity.
Qed.

Lemma int_outcome (s : string) :
  (exists z, int s = Ok z) \/ int s = Raise ValueError.
Proof.
  unfold int.
  destruct (strip is_space s) as [|c b]; [now right |].
  assert (H : forall (sign : Z) (body : string),
             (exists z, match body with
                        | EmptyString => Raise ValueError
                        | String _ _ =>
                            match digits_value 0 body with
                            | Some v => Ok (sign * v)
                            | None => Raise ValueError
                            end
                        end = Ok z)
             \/ match body with
                | EmptyString => Raise ValueError
                | String _ _ =>
                    match digits_value 0 body with
                    | Some v => Ok (sign * v)
                    | None => Raise ValueError
                    end
                end = Raise ValueError).
  { intros sign [|d body]; [now right |].
    destruct (digits_value 0 (String d body)); [left; eauto | now right]. }
  destruct (Ascii.eqb c "+"); [apply (H 1 b) |].
  destruct (Ascii.eqb c "-"); [apply (H (-1) b) | apply (H 1 (String c b))].
Qed.



(** C3: a bracket group with four colon-separated fields is not refused:
    the parser returns the full-axis slice for it, also when one of the
    fields is not an integer.  Groups of at most three fields do fail on
    such a field ([parse_dimension_bad_field]). *)
Theorem parse_hyperslab_four_fields :
  fields "[1:2:3:4]" = ["1"; "2"; "3"; "4"]
  /\ parse_hyperslab "[1:2:3:4]" = Ok [Slice None None None]
  /\ fields "[1:2:3:x]" = ["1"; "2"; "3"; "x"]
  /\ int "x" = Raise ValueError
  /\ parse_hyperslab "[1:2:3:x]" = Ok [Slice None None None]
  /\ parse_hyperslab "[x]" = Raise ValueError.
Proof. repeat split; vm_compute; reflexivity. Qed.

(** Two more malformed inputs: a group whose first field is empty is
    refused, since [int] is applied to that field whatever it is; and text
    without a closing bracket keeps the splitting loop turning for ever. *)
Lemma parse_hyperslab_empty_start_unclosed :
  parse_hyperslab "[:5]" = Raise ValueError
  /\ parse_hyperslab "[1::5]" = Raise ValueError
  /\ forall fuel, split_dimensions fuel "[1" [] = Diverge.
Proof.
  repeat split; try reflexivity.
  intros fuel. now apply split_dimensions_stuck.
Qed.

(** ** The tokens of a projection *)

Import Queries.












(** ** The splitting loop of the hyperslab parser *)












Lemma int_parse_outcome (s : string) : parse_outcome (int s).
Proof. destruct (int_outcome s) as [[z ->] | ->]; [exact I | now left]. Qed.




(** ** The parser of constraint expressions always comes back *)






(** ** Well-formed queries *)









(** *** One segment *)








(** *** One path *)





(** *** The whole query *)











(** ** A field that is no integer *)




(** ** [SimpleParser] *)


Section SimpleParserFacts.

Variable regexp : Type.
Variable re_match : regexp -> Z -> string -> option nat.


End SimpleParserFacts.

End ParsersFacts.

(** * Properties of the row packer *)

Module RowsFacts.
Import Rows.

(** ** Transposing a list of lists *)

Lemma zip_lists_cons {A : Type} (c c' : list A) (cs : list (list A)) :
  zip_lists (c :: c' :: cs) = zip_with cons c (zip_lists (c' :: cs)).
Proof. reflexivity. Qed.

Lemma zip_lists_length {A : Type} (cols : list (list A)) (c : list A) :
  same_length (c :: cols) = true ->
  length (zip_lists (c :: cols)) = length c.
Proof.
  revert c. induction cols as [|c' cols IH]; intros c H.
  - simpl. now rewrite length_map.
  - rewrite zip_lists_cons, length_zip_with.
    simpl in H. apply andb_true_iff in H as [H1 H2]. apply Nat.eqb_eq in H1.
    rewrite IH; [lia |].
    simpl. apply forallb_forall. intros x Hx.
    rewrite forallb_forall in H2. specialize (H2 x Hx).
    apply Nat.eqb_eq in H2. apply Nat.eqb_eq. lia.
Qed.

(** Rows that each get one more leading entry: the entries form a new first
    column. *)
Lemma zip_lists_zip_with_cons {A : Type} (rows : list (list A)) :
  forall c : list A,
    length c = length rows -> rows <> [] ->
    zip_lists (zip_with cons c rows) = c :: zip_lists rows.
Proof.
  induction rows as [|r rows IH]; intros c Hlen Hne; [contradiction |].
  destruct c as [|x c]; [discriminate |].
  destruct rows as [|r' rows].
  - destruct c; [| discriminate]. reflexivity.
  - destruct c as [|x' c]; [discriminate |].
    change (zip_with cons (x :: x' :: c) (r :: r' :: rows))
      with ((x :: r) :: zip_with cons (x' :: c) (r' :: rows)).
    change (zip_with cons (x' :: c) (r' :: rows))
      with ((x' :: r') :: zip_with cons c rows) at 1.
    rewrite zip_lists_cons.
    change ((x' :: r') :: zip_with cons c rows)
      with (zip_with cons (x' :: c) (r' :: rows)).
    rewrite IH by (simpl in *; congruence).
    reflexivity.
Qed.

Lemma zip_lists_singletons {A : Type} (c : list A) :
  c <> [] -> zip_lists (map (fun x => [x]) c) = [c].
Proof.
  induction c as [|x c IH]; intros Hne; [contradiction |].
  destruct c as [|x' c]; [reflexivity |].
  change (map (fun x => [x]) (x :: x' :: c))
    with ([x] :: map (fun x => [x]) (x' :: c)).
  change (map (fun x => [x]) (x' :: c)) with ([x'] :: map (fun x => [x]) c) at 1.
  rewrite zip_lists_cons.
  change ([x'] :: map (fun x => [x]) c) with (map (fun x => [x]) (x' :: c)).
  now rewrite IH.
Qed.

Lemma same_length_tail {A : Type} (c c' : list A) (cols : list (list A)) :
  same_length (c :: c' :: cols) = true ->
  same_length (c' :: cols) = true /\ length c' = length c.
Proof.
  simpl. intros [H1 H2]%andb_true_iff. apply Nat.eqb_eq in H1. split; [| exact H1].
  apply forallb_forall. intros x Hx. rewrite forallb_forall in H2.
  specialize (H2 x Hx). apply Nat.eqb_eq in H2. apply Nat.eqb_eq. lia.
Qed.

(** Transposing twice gives the columns back, provided they have one
    length and that length is not zero. *)
Lemma zip_lists_involutive {A : Type} (cols : list (list A)) :
  same_length cols = true -> forallb has_items cols = true ->
  zip_lists (zip_lists cols) = cols.
Proof.
  induction cols as [|c cols IH]; intros Hs Hp; [reflexivity |].
  destruct cols as [|c' cols].
  - simpl. apply zip_lists_singletons. simpl in Hp. now destruct c.
  - destruct (same_length_tail _ _ _ Hs) as [Hs' Hl].
    simpl in Hp. apply andb_true_iff in Hp as [Hc Hp].
    rewrite zip_lists_cons, zip_lists_zip_with_cons.
    + now rewrite IH.
    + rewrite zip_lists_length by exact Hs'. lia.
    + intros E. apply (f_equal length) in E.
      rewrite zip_lists_length in E by exact Hs'.
      apply andb_true_iff in Hp as [Hc' _]. now destruct c'.
Qed.

Lemma zip_lists_map {A B : Type} (f : A -> B) (cols : list (list A)) :
  zip_lists (map (map f) cols) = map (map f) (zip_lists cols).
Proof.
  induction cols as [|c cols IH]; [reflexivity |].
  destruct cols as [|c' cols].
  - simpl. rewrite !map_map. reflexivity.
  - change (map (map f) (c :: c' :: cols))
      with (map f c :: map f c' :: map (map f) cols).
    rewrite !zip_lists_cons.
    change (map f c' :: map (map f) cols) with (map (map f) (c' :: cols)).
    rewrite IH. generalize (zip_lists (c' :: cols)) as rows.
    clear. induction c as [|x c IHc]; intros [|r rows]; simpl; try reflexivity.
    now rewrite IHc.
Qed.

(** ** Packing, then unpacking *)

Lemma traverse_pointwise {A B C : Type} (f : A -> outcome B) (g : B -> outcome C)
    (h : A -> C) (l : list A) :
  Forall (fun x => (y <~ f x ;; g y) = Ok (h x)) l ->
  exists ys, traverse f l = Ok ys /\ traverse g ys = Ok (map h l).
Proof.
  induction 1 as [|x l Hx _ IH].
  - exists []. split; reflexivity.
  - destruct IH as (ys & Hf & Hg).
    destruct (f x) as [y| |] eqn:Ey; try discriminate. cbn [obind] in Hx.
    exists (y :: ys). cbn [traverse]. rewrite Ey, Hf. cbn [obind].
    split; [reflexivity |]. now rewrite Hx, Hg.
Qed.

Lemma traverse_ok {A B : Type} (f : A -> outcome B) (h : A -> B) (l : list A) :
  (forall x, f x = Ok (h x)) -> traverse f l = Ok (map h l).
Proof.
  intros H. induction l as [|x l IH]; [reflexivity |].
  cbn [traverse map]. now rewrite H, IH.
Qed.

Lemma traverse_map {A B C : Type} (f : B -> outcome C) (g : A -> B) (l : list A) :
  traverse f (map g l) = traverse (fun x => f (g x)) l.
Proof.
  induction l as [|x l IH]; [reflexivity |]. cbn [traverse map]. now rewrite IH.
Qed.

Lemma forallb_map_ext {A B : Type} (p : B -> bool) (q : A -> bool)
    (f : A -> B) (l : list A) :
  (forall x, p (f x) = q x) -> forallb p (map f l) = forallb q l.
Proof.
  intros H. induction l as [|x l IH]; [reflexivity |].
  cbn [map forallb]. now rewrite H, IH.
Qed.

Lemma iterate_as_columns (level : nat) (row : list pyval) :
  iterate (as_columns level (PTuple row)) = Ok (map (to_tuples level) row).
Proof.
  destruct level as [|level]; [| reflexivity].
  simpl. now rewrite map_id.
Qed.

Lemma to_tuples_columns (level : nat) (cols : list pyval) :
  forall cs : list (list pyval),
    traverse iterate cols = Ok cs ->
    map (to_tuples (S level)) cols
    = map PTuple (map (map (to_tuples level)) cs).
Proof.
  induction cols as [|col cols IH]; intros cs H.
  - injection H as <-. reflexivity.
  - cbn [traverse] in H.
    destruct (iterate col) as [c| |] eqn:Ec; try discriminate.
    destruct (traverse iterate cols) as [cs'| |]; try discriminate.
    injection H as <-. cbn [map].
    rewrite (IH cs' eq_refl). f_equal.
    change (to_tuples (S level) col)
      with (match iterate col with
            | Ok items => PTuple (map (to_tuples level) items)
            | _ => col
            end).
    now rewrite Ec.
Qed.

(** C7, as the code has it: for parallel columns nested at least [level]
    deep in which no column is empty at any level, unpacking what was packed
    returns the columns with their items in place, as a list of nested
    tuples (the data itself when it already is one); at level 0 both
    functions return their argument. *)
Theorem unpack_pack_rows (level : nat) :
  forall data : pyval,
    rectangular level data = true ->
    populated level data = true ->
    (packed <~ pack_rows data level ;; unpack_rows packed level)
    = Ok (as_columns level data)
    /\ (as_columns level data = data ->
        (packed <~ pack_rows data level ;; unpack_rows packed level) = Ok data)
    /\ pack_rows data 0 = Ok data /\ unpack_rows data 0 = Ok data.
Proof.
  assert (Hmain : forall data : pyval,
             rectangular level data = true ->
             populated level data = true ->
             (packed <~ pack_rows data level ;; unpack_rows packed level)
             = Ok (as_columns level data)).
  { induction level as [|level IH]; intros data Hr Hp; [reflexivity |].
    cbn [rectangular populated] in Hr, Hp.
    destruct (columns data) as [cs| |] eqn:Ecs; try discriminate.
    apply andb_true_iff in Hr as [Hsame Hrows].
    apply andb_true_iff in Hp as [Hitems Hprows].
    rewrite forallb_forall in Hrows, Hprows.
    destruct (traverse_pointwise
                (fun value => pack_rows value level)
                (fun value => unpack_rows value level)
                (as_columns level)
                (map PTuple (zip_lists cs))) as (ps & Hpack & Hunpack).
    { apply List.Forall_forall. intros v Hv.
      apply in_map_iff in Hv as (row & <- & Hrow). apply IH; auto. }
    cbn [pack_rows]. unfold zip_star at 1. rewrite Ecs. cbn [obind].
    rewrite Hpack. cbn [obind unpack_rows iterate]. rewrite Hunpack.
    cbn [obind]. unfold zip_star, columns. cbn [iterate obind].
    rewrite !traverse_map.
    rewrite (traverse_ok (fun row => iterate (as_columns level (PTuple row)))
               (map (to_tuples level)))
      by (intros row; apply iterate_as_columns).
    cbn [obind]. rewrite <- zip_lists_map, zip_lists_involutive.
    - unfold columns in Ecs. cbn [as_columns].
      destruct (iterate data) as [cols| |]; try discriminate.
      cbn [obind] in Ecs. now rewrite (to_tuples_columns level cols cs Ecs).
    - destruct cs as [|c cs]; [reflexivity |]. simpl in *.
      rewrite (forallb_map_ext _ (fun c' => Nat.eqb (length c') (length c)));
        [exact Hsame |].
      intros c'. now rewrite !length_map.
    - rewrite (forallb_map_ext _ has_items); [exact Hitems |].
      intros [|x c]; reflexivity. }
  intros data Hr Hp. split; [now apply Hmain |].
  split; [| split; reflexivity].
  intros E. rewrite (Hmain data Hr Hp). now rewrite E.
Qed.

(** C7, a witness: the nested records of the docstring, as tuples. *)
Lemma unpack_pack_rows_witness :
  rectangular 2 nested_columns = true /\ populated 2 nested_columns = true
  /\ (packed <~ pack_rows nested_columns 2 ;; unpack_rows packed 2)
     = Ok nested_columns.
Proof.
  split; [reflexivity |]. split; [reflexivity |].
  apply (unpack_pack_rows 2 nested_columns); reflexivity.
Defined.

(** C7 fails as stated: two parallel columns without rows are rectangular,
    and packing loses them, so unpacking returns no column at all; and two
    columns given as lists come back as tuples, which Python's [==] tells
    from the lists. *)
Lemma unpack_pack_rows_loses_empty_columns :
  rectangular 1 empty_columns = true
  /\ (packed <~ pack_rows empty_columns 1 ;; unpack_rows packed 1)
     = Ok (PList [])
  /\ (packed <~ pack_rows empty_columns 1 ;; unpack_rows packed 1)
     <> Ok empty_columns
  /\ rectangular 1 list_columns = true
  /\ (packed <~ pack_rows list_columns 1 ;; unpack_rows packed 1)
     = Ok (PList [PTuple [PInt 1; PInt 2]; PTuple [PInt 3; PInt 4]])
  /\ (packed <~ pack_rows list_columns 1 ;; unpack_rows packed 1)
     <> Ok list_columns.
Proof. repeat split; try reflexivity; vm_compute; discriminate. Qed.

(** ** One level: both functions transpose *)



Lemma columns_iterate (data : pyval) (values : list pyval) :
  iterate data = Ok values -> columns (PList values) = columns data.
Proof. intros E. unfold columns. now rewrite E. Qed.



(** ** Unpacking, then packing *)

Lemma records_iterate (level n : nat) (v : pyval) :
  records level n v = true -> exists items, iterate v = Ok items.
Proof.
  destruct level; cbn [records]; destruct (iterate v) as [items| |];
    try discriminate; now exists items.
Qed.






End RowsFacts.

(** * Properties of the tree of variables *)

Module ModelFacts.
Import Model Arrays.

Section Tree.

Context {data : Type} `{ArrayLike data}.
Variable quote : string -> string.

#[local] Abbreviation obj := (@obj data).
#[local] Abbreviation heap := (list (@Model.obj data)).

(** ** Attribute lookup *)

Lemma getitem_name (fuel : nat) (self : ref) (o : obj) (k : string) (h : heap) :
  h !! self = Some o -> o_class o <> BaseType ->
  getitem quote fuel self (OStr k) h
  = match o_dict o !! k with
    | Some r => (Ok (VNode r), h)
    | None => (Raise KeyError, h)
    end.
Proof.
  intros Ho Hc.
  destruct fuel; unfold getitem, bind, get_obj; rewrite Ho;
    destruct (o_class o); try contradiction;
    unfold StructureType_getitem, child_of, bind, get_obj; rewrite Ho;
    destruct (o_dict o !! k); reflexivity.
Qed.

(** The hook [__getattr__] of a container: the child under [k] when there
    is one, else the entry [k] of the metadata, else [AttributeError]. *)
Lemma getattr_hook_run (fuel : nat) (self : ref) (o : obj) (k : string)
    (h : heap) :
  h !! self = Some o -> o_class o <> BaseType ->
  getattr_hook quote fuel self k h
  = match o_dict o !! k with
    | Some r => (Ok (Child r), h)
    | None =>
        match o_attributes o !! k with
        | Some v => (Ok (Metadata v), h)
        | None => (Raise AttributeError, h)
        end
    end.
Proof.
  intros Ho Hc.
  unfold getattr_hook, bind, get_obj. rewrite Ho.
  assert (E : StructureType_getattr quote fuel self k h
              = match o_dict o !! k with
                | Some r => (Ok (Child r), h)
                | None =>
                    match o_attributes o !! k with
                    | Some v => (Ok (Metadata v), h)
                    | None => (Raise AttributeError, h)
                    end
                end).
  { unfold StructureType_getattr, try_except, bind.
    rewrite (getitem_name fuel self o k h Ho Hc).
    destruct (o_dict o !! k); [reflexivity |].
    unfold DapType_getattr, bind, get_obj. rewrite Ho.
    destruct (o_attributes o !! k); reflexivity. }
  destruct (o_class o); try contradiction; exact E.
Qed.

Variable data_attribute : data -> string -> outcome (pyobj data).

(** C10, as the code has it: let [k] be a name that the ordinary lookup of
    attributes does not find on the container [C]: no attribute that the
    constructors set, nothing that the class of [C] or one of its bases
    binds, no attribute of [object].  Then [C.k] goes to [__getattr__]: with
    a child under [k] it is that child, whether or not the metadata has an
    entry [k]; without such a child it is the entry [k] of the metadata,
    and [AttributeError] when there is none either. *)
Theorem getattr_child_first (fuel : nat) (self : ref) (o : obj) (k : string)
    (h : heap) :
  h !! self = Some o -> o_class o <> BaseType ->
  ordinary (o_class o) k = false ->
  (forall (child : ref) (v : pyobj data),
      o_dict o !! k = Some child -> o_attributes o !! k = Some v ->
      getattr quote data_attribute fuel self k h
      = (Ok (Hooked (Child child)), h))
  /\ (forall child : ref,
        o_dict o !! k = Some child ->
        getattr quote data_attribute fuel self k h
        = (Ok (Hooked (Child child)), h))
  /\ (o_dict o !! k = None ->
      getattr quote data_attribute fuel self k h
      = match o_attributes o !! k with
        | Some v => (Ok (Hooked (Metadata v)), h)
        | None => (Raise AttributeError, h)
        end).
Proof.
  intros Ho Hc Hord.
  assert (Hrun : getattr quote data_attribute fuel self k h
                 = match o_dict o !! k with
                   | Some r => (Ok (Hooked (Child r)), h)
                   | None =>
                       match o_attributes o !! k with
                       | Some v => (Ok (Hooked (Metadata v)), h)
                       | None => (Raise AttributeError, h)
                       end
                   end).
  { unfold getattr. unfold bind at 1. unfold get_obj at 1. rewrite Ho.
    unfold ordinary in Hord.
    destruct (defining_class (o_class o) k); [discriminate |].
    rewrite Hord. unfold bind at 1.
    rewrite (getattr_hook_run fuel self o k h Ho Hc).
    destruct (o_dict o !! k); [reflexivity |].
    destruct (o_attributes o !! k); reflexivity. }
  repeat split.
  - intros child v Hd _. now rewrite Hrun, Hd.
  - intros child Hd. now rewrite Hrun, Hd.
  - intros Hd. now rewrite Hrun, Hd.
Qed.

(** ** What a call leaves of the heap *)

Lemma keeps_ret {A : Type} (P : heap -> Prop) (a : A) : keeps P (ret a).
Proof. intros h Hh. exact Hh. Qed.

Lemma keeps_raise {A : Type} (P : heap -> Prop) (e : exn) :
  keeps P (raise e : M A).
Proof. intros h Hh. exact Hh. Qed.

Lemma keeps_diverge {A : Type} (P : heap -> Prop) : keeps P (diverge : M A).
Proof. intros h Hh. exact Hh. Qed.

Lemma keeps_lift {A : Type} (P : heap -> Prop) (o : outcome A) :
  keeps P (lift o).
Proof. intros h Hh. exact Hh. Qed.

Lemma keeps_get_obj (P : heap -> Prop) (r : ref) : keeps P (get_obj r).
Proof. intros h Hh. unfold get_obj. now destruct (h !! r). Qed.

Lemma keeps_bind {A B : Type} (P : heap -> Prop) (m : M A) (k : A -> M B) :
  keeps P m -> (forall a, keeps P (k a)) -> keeps P (bind m k).
Proof.
  intros Hm Hk h Hh. unfold bind. specialize (Hm h Hh).
  destruct (m h) as [[a|e|] h']; simpl in *; auto. now apply Hk.
Qed.

Lemma keeps_for_each {A : Type} (P : heap -> Prop) (l : list A)
    (body : A -> M unit) :
  (forall a, keeps P (body a)) -> keeps P (for_each l body).
Proof.
  intros Hb. induction l as [|a l IH]; simpl.
  - apply keeps_ret.
  - apply keeps_bind; auto.
Qed.

Lemma keeps_child_of (P : heap -> Prop) (self : ref) (key : string) :
  keeps P (child_of self key).
Proof.
  unfold child_of. apply keeps_bind; [apply keeps_get_obj |].
  intros o. destruct (o_dict o !! key); [apply keeps_ret | apply keeps_raise].
Qed.

Lemma same_but_ids_refl (h : heap) : same_but_ids h h.
Proof. reflexivity. Qed.

Lemma same_but_ids_lookup (h h' : heap) (r : ref) (o : obj) :
  same_but_ids h h' -> h !! r = Some o ->
  exists o', h' !! r = Some o' /\ with_id EmptyString o' = with_id EmptyString o.
Proof.
  unfold same_but_ids. intros E Ho.
  assert (E' : (with_id EmptyString <$> h') !! r
               = (with_id EmptyString <$> h) !! r) by now rewrite E.
  rewrite !list_lookup_fmap, Ho in E'.
  destruct (h' !! r) as [o'|]; [| discriminate].
  exists o'. split; [reflexivity |]. simpl in E'. congruence.
Qed.

Lemma keeps_set_id_field (h0 : heap) (r : ref) (id : string) :
  keeps (same_but_ids h0) (modify r (with_id id)).
Proof.
  intros h Hh. unfold modify. destruct (h !! r) as [o|] eqn:Ho; [| exact Hh].
  simpl. unfold same_but_ids in *. rewrite <- Hh.
  rewrite list_fmap_insert.
  apply list_insert_id. rewrite list_lookup_fmap, Ho. reflexivity.
Qed.

(** Setting an id, with all that follows from it, changes ids only. *)
Lemma keeps_set_id (h0 : heap) (fuel : nat) :
  forall (self : ref) (id : string),
    keeps (same_but_ids h0) (DapType_set_id fuel self id).
Proof.
  induction fuel as [|fuel IH]; intros self id; simpl.
  - apply keeps_diverge.
  - apply keeps_bind; [apply keeps_set_id_field |]. intros _.
    apply keeps_bind; [apply keeps_get_obj |]. intros o.
    apply keeps_for_each. intros key.
    apply keeps_bind; [apply keeps_child_of |]. intros child.
    apply keeps_bind; [apply keeps_get_obj |]. intros c. apply IH.
Qed.

Lemma same_but_ids_trans (h1 h2 h3 : heap) :
  same_but_ids h1 h2 -> same_but_ids h2 h3 -> same_but_ids h1 h3.
Proof. unfold same_but_ids. congruence. Qed.

Lemma bind_ok {A B : Type} (m : M A) (k : A -> M B) (h h' : heap) (b : B) :
  bind m k h = (Ok b, h') ->
  exists a h1, m h = (Ok a, h1) /\ k a h1 = (Ok b, h').
Proof.
  unfold bind. destruct (m h) as [[a|e|] h1]; try discriminate. eauto.
Qed.

(** A successful [get_obj]: the object is there and the heap is the same. *)
Ltac inv_get E :=
  unfold get_obj in E;
  match type of E with
  | context [match ?x with Some _ => _ | None => _ end] =>
      destruct x; [| discriminate E]
  end;
  injection E as <- <-.

Lemma set_id_ok (fuel : nat) (self : ref) (id : string) (h h' : heap)
    (r : outcome unit) :
  DapType_set_id fuel self id h = (r, h') -> same_but_ids h h'.
Proof.
  intros E. pose proof (keeps_set_id h fuel self id h (same_but_ids_refl h)) as K.
  now rewrite E in K.
Qed.

(** ** Keys *)

Lemma key_in_In (key : string) (keys : list string) :
  key_in key keys = true <-> In key keys.
Proof.
  unfold key_in. rewrite existsb_exists. split.
  - intros (k & Hk & E). apply String.eqb_eq in E. now subst.
  - intros Hk. exists key. split; [exact Hk | apply String.eqb_refl].
Qed.

Lemma remove_first_absent (key : string) (keys : list string) :
  ~ In key keys -> remove_first key keys = keys.
Proof.
  induction keys as [|k keys IH]; simpl; [reflexivity |].
  intros Hn. destruct (String.eqb_spec key k) as [-> | _].
  - exfalso. apply Hn. now left.
  - rewrite IH; [reflexivity |]. intros Hk. apply Hn. now right.
Qed.

Lemma remove_first_In (key k : string) (keys : list string) :
  In k (remove_first key keys) -> In k keys.
Proof.
  induction keys as [|k' keys IH]; simpl; [auto |].
  destruct (String.eqb key k'); simpl; intuition.
Qed.

Lemma remove_first_NoDup (key : string) (keys : list string) :
  List.NoDup keys ->
  List.NoDup (remove_first key keys) /\ ~ In key (remove_first key keys).
Proof.
  induction 1 as [|k keys Hk Hnd IH]; simpl.
  - split; [constructor | auto].
  - destruct (String.eqb_spec key k) as [-> | Hne].
    + split; assumption.
    + destruct IH as [IH1 IH2]. split.
      * constructor; [| exact IH1]. intros Hin. apply Hk.
        eapply remove_first_In, Hin.
      * simpl. intros [E | Hin]; [congruence | contradiction].
Qed.

(** The keys after [attach]: the old ones without [key], then [key]. *)
Lemma attach_keys (key : string) (item : ref) (o : obj) :
  o_keys (attach key item o) = (remove_first key (o_keys o) ++ [key])%list.
Proof.
  unfold attach. simpl. destruct (key_in key (o_keys o)) eqn:E; [reflexivity |].
  rewrite remove_first_absent; [reflexivity |].
  intros Hin. apply key_in_In in Hin. congruence.
Qed.

(** Keys without repetition stay so under [attach]. *)
Lemma attach_NoDup (key : string) (item : ref) (o : obj) :
  List.NoDup (o_keys o) -> List.NoDup (o_keys (attach key item o)).
Proof.
  intros Hnd. rewrite attach_keys.
  destruct (remove_first_NoDup key (o_keys o) Hnd) as [H1 H2].
  revert H1 H2. generalize (remove_first key (o_keys o)) as keys.
  induction keys as [|k keys IH]; intros H1 H2; simpl.
  - constructor; [intros [] | constructor].
  - apply NoDup_cons_iff in H1 as [Hk H1]. constructor.
    + intros Hin. apply in_app_or in Hin as [Hin | [-> | []]];
        [contradiction | apply H2; now left].
    + apply IH; [exact H1 |]. intros Hin. apply H2. now right.
Qed.

Lemma count_occ_tail (key : string) (keys : list string) :
  ~ In key keys ->
  count_occ string_dec (keys ++ [key]) key = 1%nat.
Proof.
  intros Hn. rewrite count_occ_app. simpl.
  destruct (string_dec key key); [| contradiction].
  rewrite (proj1 (count_occ_not_In string_dec keys key) Hn). reflexivity.
Qed.

(** ** Insertion *)

Lemma StructureType_setitem_mismatch (fuel : nat) (self item : ref) (it : obj)
    (key : string) (h : heap) :
  h !! item = Some it -> quote key <> o_name it ->
  StructureType_setitem quote fuel self key item h = (Raise KeyError, h).
Proof.
  intros Hit Hne. unfold StructureType_setitem, bind, get_obj. rewrite Hit.
  destruct (String.eqb_spec (quote key) (o_name it)); [contradiction |].
  reflexivity.
Qed.

(** A successful [StructureType.__setitem__]: the key was the quoted name,
    the container was changed by [attach], and the rest changed ids only. *)
Lemma StructureType_setitem_ok (fuel : nat) (self item : ref) (o it : obj)
    (key : string) (h h' : heap) :
  h !! self = Some o -> h !! item = Some it ->
  StructureType_setitem quote fuel self key item h = (Ok tt, h') ->
  quote key = o_name it
  /\ same_but_ids (<[self := attach (quote key) item o]> h) h'.
Proof.
  intros Ho Hit E. unfold StructureType_setitem in E.
  apply bind_ok in E as (it' & h1 & E1 & E).
  unfold get_obj in E1. rewrite Hit in E1. injection E1 as <- <-.
  destruct (String.eqb_spec (quote key) (o_name it)) as [Hq | Hq];
    [| discriminate E].
  split; [exact Hq |]. cbn [negb] in E.
  apply bind_ok in E as ([] & h1 & E1 & E).
  unfold modify in E1. rewrite Ho in E1. injection E1 as <-.
  apply bind_ok in E as (s & h2 & E2 & E).
  inv_get E2.
  apply bind_ok in E as (it2 & h2 & E2 & E).
  inv_get E2.
  eapply set_id_ok, E.
Qed.

(** C5, as the code has it: an insertion whose quoted key differs from the
    name of the child, and on a [DatasetType] also one whose key itself
    differs from it, raises [KeyError] and leaves the whole heap as it
    was: the order of the keys, the map from keys to children and every
    id. *)
Theorem setitem_mismatch_unchanged (fuel : nat) (self item : ref) (o it : obj)
    (key : string) (h : heap) :
  h !! self = Some o -> o_class o <> BaseType -> h !! item = Some it ->
  quote key <> o_name it \/ (o_class o = DatasetType /\ key <> o_name it) ->
  setitem quote fuel self key item h = (Raise KeyError, h).
Proof.
  intros Ho Hc Hit Hne. unfold setitem, bind at 1, get_obj at 1. rewrite Ho.
  assert (Hd : (quote key <> o_name it \/ key <> o_name it) ->
               DatasetType_setitem quote fuel self key item h
               = (Raise KeyError, h)).
  { intros Hne'. unfold DatasetType_setitem, bind at 1, get_obj at 1.
    rewrite Hit.
    destruct (String.eqb_spec key (o_name it)) as [Hk | Hk]; [| reflexivity].
    cbn [negb]. unfold bind at 1.
    rewrite (StructureType_setitem_mismatch fuel self item it key h Hit);
      [reflexivity | tauto]. }
  destruct (o_class o) eqn:Ec; try contradiction.
  - destruct Hne as [Hne | [? _]]; [| discriminate].
    now apply (StructureType_setitem_mismatch fuel self item it).
  - apply Hd. tauto.
  - destruct Hne as [Hne | [? _]]; [| discriminate].
    now apply (StructureType_setitem_mismatch fuel self item it).
  - destruct Hne as [Hne | [? _]]; [| discriminate].
    now apply (StructureType_setitem_mismatch fuel self item it).
Qed.

(** A successful insertion, whatever the class of the container. *)
Lemma setitem_ok (fuel : nat) (self item : ref) (o it : obj)
    (key : string) (h h' : heap) :
  h !! self = Some o -> h !! item = Some it ->
  setitem quote fuel self key item h = (Ok tt, h') ->
  o_class o <> BaseType /\ quote key = o_name it
  /\ same_but_ids (<[self := attach (quote key) item o]> h) h'.
Proof.
  intros Ho Hit E. unfold setitem in E.
  apply bind_ok in E as (o' & h1 & E1 & E).
  unfold get_obj in E1. rewrite Ho in E1. injection E1 as <- <-.
  destruct (o_class o) eqn:Ec; try discriminate E;
    try (split; [discriminate |];
         now apply (StructureType_setitem_ok fuel self item o it key h h')).
  split; [discriminate |].
  unfold DatasetType_setitem in E.
  apply bind_ok in E as (it' & h1 & E1 & E).
  unfold get_obj in E1. rewrite Hit in E1. injection E1 as <- <-.
  destruct (negb (String.eqb key (o_name it))); [discriminate E |].
  apply bind_ok in E as ([] & h1 & E1 & E).
  destruct (StructureType_setitem_ok fuel self item o it key h h1 Ho Hit E1)
    as [Hq Hs].
  split; [exact Hq |].
  apply bind_ok in E as (it2 & h2 & E2 & E).
  inv_get E2.
  eapply same_but_ids_trans; [exact Hs |]. eapply set_id_ok, E.
Qed.

(** C4: after a successful [C[k] = x] with [x.name == k], [C[k]] is [x], and
    the keys of [C] are the old ones without [k], in their order, followed
    by [k]: [k] is there once, at the tail, also when it was there
    before. *)
Theorem setitem_key_at_tail (fuel : nat) (self item : ref) (o it : obj)
    (k : string) (h h' : heap) :
  h !! self = Some o -> h !! item = Some it ->
  o_name it = k -> List.NoDup (o_keys o) ->
  setitem quote fuel self k item h = (Ok tt, h') ->
  exists o',
    h' !! self = Some o'
    /\ getitem quote fuel self (OStr k) h' = (Ok (VNode item), h')
    /\ o_keys o' = (remove_first k (o_keys o) ++ [k])%list
    /\ ~ In k (remove_first k (o_keys o))
    /\ count_occ string_dec (o_keys o') k = 1%nat
    /\ last (o_keys o') = Some k
    /\ List.NoDup (o_keys o').
Proof.
  intros Ho Hit Hname Hnd E.
  destruct (setitem_ok fuel self item o it k h h' Ho Hit E) as (Hc & Hq & Hs).
  rewrite Hname in Hq. rewrite Hq in Hs.
  destruct (same_but_ids_lookup _ h' self (attach k item o) Hs) as (o' & Ho' & Eo).
  { apply list_lookup_insert_eq. now apply lookup_lt_Some in Ho. }
  assert (Ekeys : o_keys o' = o_keys (attach k item o))
    by (apply (f_equal o_keys) in Eo; exact Eo).
  assert (Edict : o_dict o' = o_dict (attach k item o))
    by (apply (f_equal o_dict) in Eo; exact Eo).
  assert (Eclass : o_class o' = o_class o)
    by (apply (f_equal o_class) in Eo; exact Eo).
  destruct (remove_first_NoDup k (o_keys o) Hnd) as [_ Hnot].
  exists o'. split; [exact Ho' |]. split.
  { rewrite (getitem_name fuel self o' k h' Ho') by congruence.
    rewrite Edict. unfold attach. simpl. now rewrite lookup_insert_eq. }
  rewrite Ekeys, attach_keys.
  split; [reflexivity |]. split; [exact Hnot |].
  split; [now apply count_occ_tail |]. split; [apply last_snoc |].
  rewrite <- (attach_keys k item o). now apply attach_NoDup.
Qed.

#[local] Open Scope list_scope.

(** ** Running the primitives *)

Lemma get_obj_run (r : ref) (o : obj) (h : heap) :
  h !! r = Some o -> get_obj r h = (Ok o, h).
Proof. intros E. unfold get_obj. now rewrite E. Qed.

Lemma bind_run {A B : Type} (m : M A) (k : A -> M B) (h h1 : heap) (a : A) :
  m h = (Ok a, h1) -> bind m k h = k a h1.
Proof. intros E. unfold bind. now rewrite E. Qed.

Lemma modify_run (r : ref) (f : obj -> obj) (o : obj) (h : heap) :
  h !! r = Some o -> modify r f h = (Ok tt, <[r := f o]> h).
Proof. intros E. unfold modify. now rewrite E. Qed.

Lemma child_of_run (self child : ref) (o : obj) (key : string) (h : heap) :
  h !! self = Some o -> o_dict o !! key = Some child ->
  child_of self key h = (Ok child, h).
Proof.
  intros Ho Hk. unfold child_of.
  rewrite (bind_run _ _ _ _ _ (get_obj_run _ _ _ Ho)). now rewrite Hk.
Qed.

(** Setting the id of a node without children. *)
Lemma set_id_leaf (fuel : nat) (r : ref) (id : string) (o : obj) (h : heap) :
  h !! r = Some o -> children_keys o = [] ->
  DapType_set_id (S fuel) r id h = (Ok tt, <[r := with_id id o]> h).
Proof.
  intros Ho Hk. cbn [DapType_set_id].
  rewrite (bind_run _ _ _ _ _ (modify_run _ _ _ _ Ho)).
  assert (Ho' : <[r := with_id id o]> h !! r = Some (with_id id o)).
  { apply list_lookup_insert_eq. now apply lookup_lt_Some in Ho. }
  rewrite (bind_run _ _ _ _ _ (get_obj_run _ _ _ Ho')).
  replace (children_keys (with_id id o)) with (@nil string); reflexivity.
Qed.

Lemma insert_last (l : list obj) (o o' : obj) :
  <[length l := o']> (l ++ [o]) = l ++ [o'].
Proof.
  rewrite <- (Nat.add_0_r (length l)), insert_app_r. reflexivity.
Qed.

Lemma BaseType_clone_run (fuel : nat) (c : ref) (oc : obj) (h : heap) :
  h !! c = Some oc ->
  BaseType_clone quote (S fuel) c h
  = (Ok (length h),
     h ++ [Obj BaseType (quote (o_name oc)) (∅ ∪ o_attributes oc) (o_id oc)
               [] ∅ (o_data oc) (o_dimensions oc)]).
Proof.
  intros Hc. unfold BaseType_clone.
  rewrite (bind_run _ _ _ _ _ (get_obj_run _ _ _ Hc)).
  unfold new_BaseType, alloc, DapType_init. unfold bind at 1. cbn [o_class o_name o_attributes o_id o_keys o_dict].
  set (o' := Obj BaseType _ _ _ _ _ _ _).
  assert (Hc' : (h ++ [o']) !! c = Some oc).
  { rewrite lookup_app_l; [exact Hc | now apply lookup_lt_Some in Hc]. }
  rewrite (bind_run _ _ _ _ _ (get_obj_run _ _ _ Hc')).
  assert (Ho' : (h ++ [o']) !! length h = Some o')
    by now apply list_lookup_middle.
  rewrite (bind_run _ _ _ _ _ (set_id_leaf fuel _ (o_id oc) o' _ Ho' eq_refl)).
  rewrite insert_last. reflexivity.
Qed.

Lemma clone_leaf_run (fuel : nat) (c : ref) (oc : obj) (h : heap) :
  h !! c = Some oc -> o_class oc = BaseType ->
  clone quote (S (S fuel)) c h
  = (Ok (length h),
     h ++ [Obj BaseType (quote (o_name oc)) (∅ ∪ o_attributes oc) (o_id oc)
               [] ∅ (o_data oc) (o_dimensions oc)]).
Proof.
  intros Hc Hcls. cbn [clone].
  rewrite (bind_run _ _ _ _ _ (get_obj_run _ _ _ Hc)). rewrite Hcls.
  now apply BaseType_clone_run.
Qed.

(** Attaching a node without children to a container that is no dataset. *)
Lemma setitem_leaf_run (fuel : nat) (out copy : ref) (oo ocopy : obj)
    (key : string) (h : heap) :
  h !! out = Some oo -> o_class oo <> BaseType -> o_class oo <> DatasetType ->
  h !! copy = Some ocopy -> children_keys ocopy = [] -> out <> copy ->
  quote key = o_name ocopy ->
  setitem quote (S fuel) out key copy h
  = (Ok tt,
     <[copy := with_id (o_id oo ++ "." ++ o_name ocopy)%string ocopy]>
       (<[out := attach (o_name ocopy) copy oo]> h)).
Proof.
  intros Ho Hb Hd Hc Hkids Hne Hq.
  assert (E : StructureType_setitem quote (S fuel) out key copy h
              = (Ok tt,
                 <[copy := with_id (o_id oo ++ "." ++ o_name ocopy)%string ocopy]>
                   (<[out := attach (o_name ocopy) copy oo]> h))).
  { unfold StructureType_setitem.
    rewrite (bind_run _ _ _ _ _ (get_obj_run _ _ _ Hc)).
    rewrite Hq, String.eqb_refl. cbn [negb].
    rewrite (bind_run _ _ _ _ _ (modify_run _ _ _ _ Ho)).
    set (h1 := <[out := _]> h).
    assert (Ho1 : h1 !! out = Some (attach (o_name ocopy) copy oo)).
    { apply list_lookup_insert_eq. now apply lookup_lt_Some in Ho. }
    assert (Hc1 : h1 !! copy = Some ocopy).
    { unfold h1. now rewrite list_lookup_insert_ne. }
    rewrite (bind_run _ _ _ _ _ (get_obj_run _ _ _ Ho1)).
    rewrite (bind_run _ _ _ _ _ (get_obj_run _ _ _ Hc1)).
    now apply set_id_leaf. }
  unfold setitem. rewrite (bind_run _ _ _ _ _ (get_obj_run _ _ _ Ho)).
  destruct (o_class oo); try contradiction; exact E.
Qed.

(** ** The cascade of ids through a tree *)

Lemma Forall2_impl_In {A B : Type} (P Q : A -> B -> Prop) (l : list A)
    (k : list B) :
  (forall x y, In y k -> P x y -> Q x y) ->
  Forall2 P l k -> Forall2 Q l k.
Proof.
  intros Himp Hall. induction Hall as [|x y l k Hxy _ IH]; constructor.
  - apply Himp; [now left | exact Hxy].
  - apply IH. intros x' y' Hin. apply Himp. now right.
Qed.

Lemma tree_root_in (depth : nat) (h : heap) (r : ref) (nodes : list ref) :
  tree depth h r nodes -> In r nodes.
Proof.
  destruct depth; [contradiction |].
  intros (o & parts & _ & -> & _). now left.
Qed.

Lemma tree_root_obj (depth : nat) (h : heap) (r : ref) (nodes : list ref) :
  tree depth h r nodes -> exists o, h !! r = Some o.
Proof.
  destruct depth; [contradiction |].
  intros (o & parts & Ho & _). eauto.
Qed.

Lemma erased_fields (o o' : obj) :
  with_id EmptyString o' = with_id EmptyString o ->
  o_dict o' = o_dict o /\ children_keys o' = children_keys o
  /\ o_name o' = o_name o.
Proof.
  intros E. unfold children_keys.
  rewrite (f_equal o_dict E : o_dict o' = o_dict o).
  rewrite (f_equal o_class E : o_class o' = o_class o).
  rewrite (f_equal o_keys E : o_keys o' = o_keys o).
  rewrite (f_equal o_name E : o_name o' = o_name o). auto.
Qed.

(** A tree is still one in a heap that agrees with the old one, ids apart,
    on its nodes. *)
Lemma tree_agree (depth : nat) :
  forall (h h' : heap) (r : ref) (nodes : list ref),
    (forall n, In n nodes ->
               with_id EmptyString <$> h' !! n = with_id EmptyString <$> h !! n) ->
    tree depth h r nodes -> tree depth h' r nodes.
Proof.
  induction depth as [|d IH]; intros h h' r nodes Hag Ht; [contradiction |].
  destruct Ht as (o & parts & Ho & -> & Hnd & Hkids).
  pose proof (Hag r (or_introl eq_refl)) as Hr. rewrite Ho in Hr.
  destruct (h' !! r) as [o'|] eqn:Ho'; [| discriminate].
  simpl in Hr.
  assert (Hr' : with_id EmptyString o' = with_id EmptyString o) by congruence.
  apply erased_fields in Hr' as (Hd & Hk & _).
  exists o', parts. rewrite Hk.
  split; [exact Ho' |]. split; [reflexivity |]. split; [exact Hnd |].
  eapply Forall2_impl_In; [| exact Hkids].
  intros key part Hin (c & Hc & Htree). exists c. rewrite Hd.
  split; [exact Hc |]. apply (IH h); [| exact Htree].
  intros n Hn. apply Hag. right. apply in_concat. eauto.
Qed.

Lemma ids_follow_frame (depth : nat) :
  forall (h h' : heap) (r : ref) (nodes : list ref),
    tree depth h r nodes ->
    (forall n, In n nodes -> h' !! n = h !! n) ->
    ids_follow depth h r -> ids_follow depth h' r.
Proof.
  induction depth as [|d IH]; intros h h' r nodes Ht Hfr Hids; [exact I |].
  destruct Ht as (o & parts & Ho & -> & Hnd & Hkids).
  destruct Hids as (o0 & Ho0 & Hall).
  rewrite Ho in Ho0. injection Ho0 as <-.
  exists o. split; [rewrite Hfr; [exact Ho | now left] |].
  assert (Hparts : forall part n, In part parts -> In n part ->
                                  h' !! n = h !! n).
  { intros part n Hp Hn. apply Hfr. right. apply in_concat. eauto. }
  clear Hfr Hnd Ho. revert Hall Hparts.
  induction Hkids as [|key part keys parts (c & Hc & Htree) _ IHk];
    intros Hall Hparts; [constructor |].
  apply Forall_cons in Hall as [(c' & oc & Hc' & Hoc & Hid & Hsub) Hall].
  rewrite Hc in Hc'. injection Hc' as <-.
  constructor.
  - exists c, oc. split; [exact Hc |]. split.
    + rewrite (Hparts part c); [exact Hoc | now left |].
      eapply tree_root_in, Htree.
    + split; [exact Hid |]. apply (IH h h' c part Htree); [| exact Hsub].
      intros n Hn. apply (Hparts part); [now left | exact Hn].
  - apply IHk; [exact Hall |]. intros part' n Hp. apply Hparts. now right.
Qed.

(** Setting the id of the root of a tree, with fuel for its depth: the call
    returns, the root has the new id, every id below follows from the id of
    its parent, and nothing outside the tree is touched. *)
Theorem set_id_cascade (depth : nat) :
  forall (h : heap) (r : ref) (nodes : list ref) (id : string) (fuel : nat),
    tree depth h r nodes -> (depth <= fuel)%nat ->
    exists h',
      DapType_set_id fuel r id h = (Ok tt, h')
      /\ (forall n, ~ In n nodes -> h' !! n = h !! n)
      /\ (exists o', h' !! r = Some o' /\ o_id o' = id)
      /\ ids_follow depth h' r.
Proof.
  induction depth as [|d IH]; intros h r nodes id fuel Ht Hfuel;
    [contradiction |].
  destruct fuel as [|fuel]; [lia |].
  destruct Ht as (o & parts & Ho & -> & Hnd & Hkids).
  apply NoDup_cons_iff in Hnd as [Hr Hnd].
  cbn [DapType_set_id].
  rewrite (bind_run _ _ _ _ _ (modify_run _ _ _ _ Ho)).
  set (h1 := <[r := with_id id o]> h).
  assert (Ho1 : h1 !! r = Some (with_id id o)).
  { apply list_lookup_insert_eq. now apply lookup_lt_Some in Ho. }
  rewrite (bind_run _ _ _ _ _ (get_obj_run _ _ _ Ho1)).
  change (children_keys (with_id id o)) with (children_keys o).
  assert (Hkids1 : Forall2 (fun key part =>
                      exists c, o_dict o !! key = Some c /\ tree d h1 c part)
                     (children_keys o) parts).
  { eapply Forall2_impl_In; [| exact Hkids].
    intros key part Hin (c & Hc & Htree). exists c. split; [exact Hc |].
    apply (tree_agree d h); [| exact Htree].
    intros n Hn. unfold h1. rewrite list_lookup_insert_ne; [reflexivity |].
    intros <-. apply Hr. apply in_concat. eauto. }
  clear Hkids.
  assert (Hloop : forall keys parts hk,
             Forall2 (fun key part =>
                        exists c, o_dict o !! key = Some c /\ tree d hk c part)
                     keys parts ->
             List.NoDup (concat parts) -> ~ In r (concat parts) ->
             hk !! r = Some (with_id id o) ->
             exists hk',
               for_each keys (fun key =>
                 bind (child_of r key) (fun child =>
                 bind (get_obj child) (fun c =>
                 DapType_set_id fuel child (id ++ "." ++ o_name c)%string))) hk
               = (Ok tt, hk')
               /\ (forall n, ~ In n (concat parts) -> hk' !! n = hk !! n)
               /\ Forall (fun key =>
                            exists c oc,
                              o_dict o !! key = Some c /\ hk' !! c = Some oc
                              /\ o_id oc = (id ++ "." ++ o_name oc)%string
                              /\ ids_follow d hk' c) keys).
  { clear parts Hr Hnd Hkids1. intros keys.
    induction keys as [|key keys IHk]; intros parts hk Hall Hnd Hr Hrk.
    - exists hk. split; [reflexivity |]. split; [reflexivity | constructor].
    - apply Forall2_cons_inv_l in Hall
        as (part & parts' & (c & Hc & Htree) & Hall & ->).
      rename parts' into parts.
      cbn [concat] in Hnd, Hr.
      destruct (tree_root_obj _ _ _ _ Htree) as [oc Hoc].
      destruct (IH hk c part (id ++ "." ++ o_name oc)%string fuel Htree
                  ltac:(lia)) as (hk1 & Hrun & Hfr1 & (oc1 & Hoc1 & Hid1) & Hids1).
      pose proof (set_id_ok _ _ _ _ _ _ Hrun) as Hsame.
      destruct (same_but_ids_lookup _ _ _ _ Hsame Hoc) as (oc1' & Hoc1' & Eoc).
      rewrite Hoc1 in Hoc1'. injection Hoc1' as <-.
      apply erased_fields in Eoc as (_ & _ & Hname).
      assert (Hdisj : forall n, In n part -> ~ In n (concat parts)).
      { intros n Hn Hn'. apply NoDup_app_remove_l in Hnd as Hnd'.
        clear -Hnd Hn Hn'. induction part as [|x part IHp]; [contradiction |].
        cbn in Hnd. apply NoDup_cons_iff in Hnd as [Hx Hnd].
        destruct Hn as [-> | Hn]; [apply Hx, in_or_app; now right | now apply IHp]. }
      assert (Hrk1 : hk1 !! r = Some (with_id id o)).
      { rewrite Hfr1; [exact Hrk |]. intros Hin. apply Hr, in_or_app. now left. }
      destruct (IHk parts hk1) as (hk' & Hrest & Hfr' & Hall').
      + eapply Forall2_impl_In; [| exact Hall].
        intros key' part' Hin (c' & Hc' & Htree'). exists c'.
        split; [exact Hc' |]. apply (tree_agree d hk); [| exact Htree'].
        intros n Hn. rewrite Hfr1; [reflexivity |].
        intros Hn'. apply (Hdisj n Hn'). apply in_concat. eauto.
      + now apply NoDup_app_remove_l in Hnd.
      + intros Hin. apply Hr, in_or_app. now right.
      + exact Hrk1.
      + exists hk'. split; [| split].
        * cbn [for_each].
          assert (Hbody : bind (child_of r key) (fun child =>
                            bind (get_obj child) (fun c0 =>
                            DapType_set_id fuel child
                              (id ++ "." ++ o_name c0)%string)) hk
                          = (Ok tt, hk1)).
          { rewrite (bind_run _ _ _ _ _
                       (child_of_run r c (with_id id o) key hk Hrk Hc)).
            now rewrite (bind_run _ _ _ _ _ (get_obj_run _ _ _ Hoc)). }
          now rewrite (bind_run _ _ _ _ _ Hbody).
        * intros n Hn. rewrite Hfr', Hfr1; [reflexivity | |];
            intros Hin; apply Hn, in_or_app; [now left | now right].
        * constructor; [| exact Hall'].
          assert (Hc' : hk' !! c = Some oc1).
          { rewrite Hfr'; [exact Hoc1 |].
            apply Hdisj. eapply tree_root_in, Htree. }
          exists c, oc1. split; [exact Hc |]. split; [exact Hc' |].
          split; [now rewrite Hid1, Hname |].
          apply (ids_follow_frame d hk1 hk' c part); [| | exact Hids1].
          -- apply (tree_agree d hk); [| exact Htree].
             intros n _. unfold same_but_ids in Hsame.
             now rewrite <- !list_lookup_fmap, Hsame.
          -- intros n Hn. apply Hfr'. now apply Hdisj. }
  destruct (Hloop (children_keys o) parts h1 Hkids1 Hnd Hr Ho1)
    as (h' & Hrun & Hfr & Hall).
  exists h'. split; [exact Hrun |].
  assert (Hr' : h' !! r = Some (with_id id o)) by (rewrite Hfr; assumption).
  split; [| split].
  - intros n Hn. rewrite Hfr by (intros Hin; apply Hn; now right).
    unfold h1. apply list_lookup_insert_ne. intros <-. apply Hn. now left.
  - exists (with_id id o). split; [exact Hr' | reflexivity].
  - exists (with_id id o). split; [exact Hr' | exact Hall].
Qed.

(** Attaching the root [item] of a tree to a container outside of it: the
    call returns; under a [DatasetType] the id of [item] is its name, under
    any other container it is the id of the container, a dot, and the name;
    every id below [item] follows from the id of its parent; and the tree
    is the tree it was. *)
Lemma setitem_cascade (depth fuel : nat) (self item : ref) (o it : obj)
    (key : string) (nodes : list ref) (h : heap) :
  h !! self = Some o -> o_class o <> BaseType ->
  h !! item = Some it -> tree depth h item nodes -> ~ In self nodes ->
  quote key = o_name it -> (o_class o = DatasetType -> key = o_name it) ->
  (depth <= fuel)%nat ->
  exists h' it',
    setitem quote fuel self key item h = (Ok tt, h')
    /\ h' !! item = Some it'
    /\ o_id it' = match o_class o with
                  | DatasetType => o_name it
                  | _ => (o_id o ++ "." ++ o_name it)%string
                  end
    /\ ids_follow depth h' item
    /\ tree depth h' item nodes.
Proof.
  intros Ho Hcls Hit Htree Hself Hq Hraw Hfuel.
  assert (Hne : self <> item).
  { intros ->. apply Hself. eapply tree_root_in, Htree. }
  set (h1 := <[self := attach (quote key) item o]> h).
  assert (Ho1 : h1 !! self = Some (attach (quote key) item o)).
  { apply list_lookup_insert_eq. now apply lookup_lt_Some in Ho. }
  assert (Hit1 : h1 !! item = Some it).
  { unfold h1. now rewrite list_lookup_insert_ne. }
  assert (Htree1 : tree depth h1 item nodes).
  { apply (tree_agree depth h); [| exact Htree].
    intros n Hn. unfold h1. rewrite list_lookup_insert_ne; [reflexivity |].
    intros <-. contradiction. }
  destruct (set_id_cascade depth h1 item nodes
              (o_id o ++ "." ++ o_name it)%string fuel Htree1 Hfuel)
    as (h2 & Hrun & Hfr & (it2 & Hit2 & Hid2) & Hids).
  pose proof (set_id_ok _ _ _ _ _ _ Hrun) as Hsame.
  assert (Htree2 : tree depth h2 item nodes).
  { apply (tree_agree depth h1); [| exact Htree1].
    intros n _. unfold same_but_ids in Hsame.
    now rewrite <- !list_lookup_fmap, Hsame. }
  assert (Hstruct : StructureType_setitem quote fuel self key item h
                    = (Ok tt, h2)).
  { unfold StructureType_setitem.
    rewrite (bind_run _ _ _ _ _ (get_obj_run _ _ _ Hit)).
    rewrite Hq, String.eqb_refl. cbn [negb].
    rewrite <- Hq at 1.
    rewrite (bind_run _ _ _ _ _ (modify_run _ _ _ _ Ho)). fold h1.
    rewrite (bind_run _ _ _ _ _ (get_obj_run _ _ _ Ho1)).
    rewrite (bind_run _ _ _ _ _ (get_obj_run _ _ _ Hit1)). exact Hrun. }
  unfold setitem. rewrite (bind_run _ _ _ _ _ (get_obj_run _ _ _ Ho)).
  destruct (o_class o) eqn:Hd; try contradiction;
    try (exists h2, it2; now repeat split).
  specialize (Hraw eq_refl). unfold DatasetType_setitem.
  rewrite (bind_run _ _ _ _ _ (get_obj_run _ _ _ Hit)).
  rewrite <- Hraw, String.eqb_refl. cbn [negb].
  rewrite (bind_run _ _ _ _ _ Hstruct).
  rewrite (bind_run _ _ _ _ _ (get_obj_run _ _ _ Hit2)).
  destruct (same_but_ids_lookup _ _ _ _ Hsame Hit1) as (it2' & Hit2' & E).
  rewrite Hit2 in Hit2'. injection Hit2' as <-.
  apply erased_fields in E as (_ & _ & Hname). rewrite Hname, <- Hraw.
  destruct (set_id_cascade depth h2 item nodes key fuel Htree2 Hfuel)
    as (h3 & Hrun3 & _ & (it3 & Hit3 & Hid3) & Hids3).
  pose proof (set_id_ok _ _ _ _ _ _ Hrun3) as Hsame3.
  assert (Htree3 : tree depth h3 item nodes).
  { apply (tree_agree depth h2); [| exact Htree2].
    intros n _. unfold same_but_ids in Hsame3.
    now rewrite <- !list_lookup_fmap, Hsame3. }
  exists h3, it3. now repeat split.
Qed.

Lemma Forall2_In_l {A B : Type} (P : A -> B -> Prop) (l : list A)
    (k : list B) (x : A) :
  Forall2 P l k -> In x l -> exists y, P x y.
Proof.
  induction 1 as [|x' y l k Hxy _ IH]; intros Hin; [contradiction |].
  destruct Hin as [-> | Hin]; [now exists y | now apply IH].
Qed.

(** In a tree whose ids follow, the id of a node below the root is the id
    of the root followed by the names on the way down, a dot before each. *)
Lemma ids_below (depth : nat) :
  forall (h : heap) (r : ref) (nodes : list ref) (names : list string)
         (c : ref) (o oc : obj),
    tree depth h r nodes -> ids_follow depth h r ->
    below h r names c -> h !! r = Some o -> h !! c = Some oc ->
    o_id oc = (o_id o ++ dotted names)%string.
Proof.
  induction depth as [|d IH]; intros h r nodes names c o oc Ht Hids Hb Ho Hoc;
    [contradiction |].
  destruct names as [|name names].
  - cbn [below] in Hb. subst c. rewrite Ho in Hoc. injection Hoc as <-.
    cbn [dotted]. now rewrite ParsersFacts.append_empty_r.
  - destruct Hb as (o' & key & child & och & Ho' & Hkey & Hchild & Hoch
                    & Hname & Hb).
    rewrite Ho in Ho'. injection Ho' as <-.
    destruct Ht as (o1 & parts & Ho1 & _ & _ & Hkids).
    rewrite Ho in Ho1. injection Ho1 as <-.
    destruct Hids as (o2 & Ho2 & Hall).
    rewrite Ho in Ho2. injection Ho2 as <-.
    destruct (Forall2_In_l _ _ _ key Hkids Hkey) as (part & c1 & Hc1 & Hsub).
    rewrite Hchild in Hc1. injection Hc1 as <-.
    rewrite List.Forall_forall in Hall.
    destruct (Hall key Hkey) as (c2 & oc2 & Hc2 & Hoc2 & Hid & Hidsub).
    rewrite Hchild in Hc2. injection Hc2 as <-.
    rewrite Hoch in Hoc2. injection Hoc2 as <-.
    rewrite (IH h child part names c och oc Hsub Hidsub Hb Hoch Hoc).
    rewrite Hid, Hname. cbn [dotted].
    rewrite !ParsersFacts.append_assoc. reflexivity.
Qed.

(** ** Copying a grid *)

Lemma attach_all_fields (kids : list (ref * obj)) :
  forall (first : ref) (out : obj),
    o_class (attach_all kids first out) = o_class out
    /\ o_id (attach_all kids first out) = o_id out
    /\ o_data (attach_all kids first out) = o_data out
    /\ o_name (attach_all kids first out) = o_name out.
Proof.
  induction kids as [|kid kids IH]; intros first out; [now repeat split |].
  cbn [attach_all]. destruct (IH (S first) (attach (o_name kid.2) first out))
    as (-> & -> & -> & ->). now repeat split.
Qed.

(** The loop of [clone] over the children of a container [g] that is no
    dataset: each turn appends the copy of a child to the heap and attaches
    it to the copy of [g]. *)
Lemma clone_children_of (fuel : nat) (g : ref) (og : obj) (h : heap) :
  h !! g = Some og ->
  forall (rest : list (ref * obj)) (out : obj) (copies : list obj),
    Forall (variable_of quote h og) rest ->
    o_class out <> BaseType -> o_class out <> DatasetType ->
    for_each (map (fun kid => o_name kid.2) rest)
      (fun key =>
         bind (child_of g key) (fun child =>
         bind (clone quote (S (S fuel)) child) (fun copy =>
         bind (get_obj child) (fun c =>
         setitem quote (S (S fuel)) (length h) (o_name c) copy))))
      (h ++ out :: copies)
    = (Ok tt,
       h ++ attach_all rest (S (length h + length copies)) out
         :: copies ++ map (fun kid => copy_of (o_id out) kid.2 (o_data kid.2)) rest).
Proof.
  intros Hg rest.
  induction rest as [|[c oc] rest IH]; intros out copies Hkids Hb Hd.
  - cbn. now rewrite app_nil_r.
  - apply Forall_cons in Hkids as [(Hc & Hbase & Hbound & Hq) Hkids].
    cbn [fst snd] in *. cbn [map for_each attach_all].
    set (H0 := h ++ out :: copies).
    assert (Hlen : length H0 = S (length h + length copies))
      by (unfold H0; rewrite length_app; simpl; lia).
    assert (Hg0 : H0 !! g = Some og).
    { unfold H0. rewrite lookup_app_l; [exact Hg | now apply lookup_lt_Some in Hg]. }
    assert (Hc0 : H0 !! c = Some oc).
    { unfold H0. rewrite lookup_app_l; [exact Hc | now apply lookup_lt_Some in Hc]. }
    match goal with
    | |- bind ?body ?k H0 = _ =>
        assert (Hbody : body H0
                        = (Ok tt,
                           h ++ attach (o_name oc) (length H0) out
                             :: (copies ++ [copy_of (o_id out) oc (o_data oc)])))
    end.
    { rewrite (bind_run _ _ _ _ _ (child_of_run _ _ _ _ _ Hg0 Hbound)).
      rewrite (bind_run _ _ _ _ _ (clone_leaf_run fuel c oc H0 Hc0 Hbase)).
      rewrite Hq.
      set (copy0 := Obj BaseType (o_name oc) _ (o_id oc) _ _ _ _).
      assert (Hc1 : (H0 ++ [copy0]) !! c = Some oc).
      { rewrite lookup_app_l; [exact Hc0 | now apply lookup_lt_Some in Hc0]. }
      rewrite (bind_run _ _ _ _ _ (get_obj_run _ _ _ Hc1)).
      assert (Hout : (H0 ++ [copy0]) !! length h = Some out).
      { unfold H0. rewrite <- app_assoc. now apply list_lookup_middle. }
      assert (Hcopy : (H0 ++ [copy0]) !! length H0 = Some copy0)
        by now apply list_lookup_middle.
      rewrite (setitem_leaf_run (S fuel) (length h) (length H0) out copy0
                 (o_name oc) (H0 ++ [copy0]) Hout
                 Hb Hd
                 Hcopy eq_refl ltac:(lia) Hq).
      f_equal. cbn [o_name copy0].
      unfold H0 at 3. rewrite <- app_assoc. cbn [app].
      rewrite <- (Nat.add_0_r (length h)) at 1. rewrite insert_app_r.
      cbn [insert list_insert].
      change (h ++ attach (o_name oc) (length H0) out :: copies ++ [copy0])
        with (h ++ (attach (o_name oc) (length H0) out :: copies) ++ [copy0]).
      rewrite app_assoc.
      replace (length H0)
        with (length (h ++ attach (o_name oc) (length H0) out :: copies)) at 1
        by (unfold H0; rewrite !length_app; reflexivity).
      rewrite insert_last, <- app_assoc. reflexivity. }
    rewrite (bind_run _ _ _ _ _ Hbody).
    rewrite IH; [| exact Hkids | exact Hb | exact Hd].
    rewrite Hlen, length_app. cbn [length].
    replace (length h + (length copies + 1))%nat
      with (S (length h + length copies)) by lia.
    rewrite <- app_assoc. reflexivity.
Qed.

(** The loop of [clone] over the children of a grid [g]: each turn appends
    the copy of a child to the heap and attaches it to the copy of [g]. *)
Lemma clone_children (fuel : nat) (g : ref) (og : obj) (h : heap) :
  h !! g = Some og ->
  forall (rest : list (ref * obj)) (out : obj) (copies : list obj),
    Forall (variable_of quote h og) rest ->
    o_class out = GridType ->
    for_each (map (fun kid => o_name kid.2) rest)
      (fun key =>
         bind (child_of g key) (fun child =>
         bind (clone quote (S (S fuel)) child) (fun copy =>
         bind (get_obj child) (fun c =>
         setitem quote (S (S fuel)) (length h) (o_name c) copy))))
      (h ++ out :: copies)
    = (Ok tt,
       h ++ attach_all rest (S (length h + length copies)) out
         :: copies ++ map (fun kid => copy_of (o_id out) kid.2 (o_data kid.2)) rest).
Proof.
  intros Hg rest out copies Hkids Hcls.
  apply (clone_children_of fuel g og h Hg); try assumption;
    rewrite Hcls; discriminate.
Qed.

(** [clone] on a grid whose children are variables: the heap gets the copy
    of the grid, then the copies of the children, and nothing else
    changes. *)
Lemma clone_grid_run (fuel : nat) (g : ref) (og : obj) (h : heap)
    (kids : list (ref * obj)) :
  h !! g = Some og -> o_class og = GridType ->
  o_keys og = map (fun kid => o_name kid.2) kids ->
  Forall (variable_of quote h og) kids ->
  clone quote (S (S (S fuel))) g h
  = (Ok (length h),
     h ++ attach_all kids (S (length h))
            (Obj GridType (quote (o_name og)) (∅ ∪ o_attributes og) (o_id og)
                 [] ∅ None [])
       :: map (fun kid => copy_of (o_id og) kid.2 (o_data kid.2)) kids).
Proof.
  intros Hg Hcls Hkeys Hkids. cbn [clone].
  rewrite (bind_run _ _ _ _ _ (get_obj_run _ _ _ Hg)). rewrite Hcls.
  unfold new_container, alloc, DapType_init, with_data.
  unfold bind at 1. cbn [o_class o_name o_attributes o_id o_keys o_dict o_dimensions].
  set (o0 := Obj GridType _ _ _ _ _ _ _).
  assert (Hg0 : (h ++ [o0]) !! g = Some og).
  { rewrite lookup_app_l; [exact Hg | now apply lookup_lt_Some in Hg]. }
  rewrite (bind_run _ _ _ _ _ (get_obj_run _ _ _ Hg0)).
  assert (Ho0 : (h ++ [o0]) !! length h = Some o0)
    by now apply list_lookup_middle.
  rewrite (bind_run _ _ _ _ _ (set_id_leaf (S fuel) _ (o_id og) o0 _ Ho0 eq_refl)).
  rewrite insert_last.
  assert (Hg1 : (h ++ [with_id (o_id og) o0]) !! g = Some og).
  { rewrite lookup_app_l; [exact Hg | now apply lookup_lt_Some in Hg]. }
  rewrite (bind_run _ _ _ _ _ (get_obj_run _ _ _ Hg1)).
  replace (children_keys og) with (map (fun kid : ref * obj => o_name kid.2) kids)
    by (unfold children_keys; now rewrite Hcls, Hkeys).
  rewrite (bind_run _ _ _ _ _
             (clone_children fuel g og h Hg kids (with_id (o_id og) o0) []
                Hkids eq_refl)).
  cbn [length app]. rewrite Nat.add_0_r. reflexivity.
Qed.

(** The keys and the map of the copy. *)
Lemma attach_all_keys (kids : list (ref * obj)) :
  forall (first : ref) (out : obj),
    List.NoDup (o_keys out ++ map (fun kid => o_name kid.2) kids) ->
    o_keys (attach_all kids first out)
    = o_keys out ++ map (fun kid => o_name kid.2) kids.
Proof.
  induction kids as [|kid kids IH]; intros first out Hnd.
  - cbn. now rewrite app_nil_r.
  - cbn [attach_all map]. cbn [map] in Hnd.
    assert (Hk : o_keys (attach (o_name kid.2) first out)
                 = o_keys out ++ [o_name kid.2]).
    { rewrite attach_keys, remove_first_absent; [reflexivity |].
      intros Hin. apply NoDup_remove_2 in Hnd. apply Hnd.
      apply in_or_app. now left. }
    rewrite IH; rewrite Hk, <- app_assoc; [reflexivity | exact Hnd].
Qed.

Lemma attach_all_dict_other (kids : list (ref * obj)) (name : string) :
  forall (first : ref) (out : obj),
    ~ In name (map (fun kid => o_name kid.2) kids) ->
    o_dict (attach_all kids first out) !! name = o_dict out !! name.
Proof.
  induction kids as [|kid kids IH]; intros first out Hn; [reflexivity |].
  cbn [attach_all]. cbn [map] in Hn. rewrite IH by (intros ?; apply Hn; now right).
  unfold attach. cbn [o_dict with_children].
  apply lookup_insert_ne. intros E. apply Hn. now left.
Qed.

Lemma attach_all_dict (kids : list (ref * obj)) :
  forall (first : ref) (out : obj) (i : nat) (kid : ref * obj),
    List.NoDup (map (fun kid => o_name kid.2) kids) ->
    kids !! i = Some kid ->
    o_dict (attach_all kids first out) !! o_name kid.2 = Some (first + i)%nat.
Proof.
  induction kids as [|kid0 kids IH]; intros first out i kid Hnd Hi;
    [discriminate |].
  cbn [attach_all]. cbn [map] in Hnd. apply NoDup_cons_iff in Hnd as [Hn Hnd].
  destruct i as [|i]; cbn in Hi.
  - injection Hi as ->. rewrite attach_all_dict_other by exact Hn.
    unfold attach. cbn [o_dict with_children].
    rewrite lookup_insert_eq. f_equal. lia.
  - rewrite (IH (S first) _ i kid Hnd Hi). f_equal. lia.
Qed.

(** ** Slicing the copies *)

Lemma map_M_run {A B : Type} (f : A -> M B) (h : heap) (xs : list A)
    (ys : list B) :
  Forall2 (fun x y => f x h = (Ok y, h)) xs ys ->
  map_M f xs h = (Ok ys, h).
Proof.
  induction 1 as [|x y xs ys Hx _ IH]; [reflexivity |].
  cbn [map_M]. rewrite (bind_run _ _ _ _ _ Hx).
  now rewrite (bind_run _ _ _ _ _ IH).
Qed.

Lemma getitem_leaf_run (fuel : nat) (c : ref) (oc : obj) (index : pyobj data)
    (e : data) (h : heap) :
  h !! c = Some oc -> o_class oc = BaseType ->
  indexed (o_data oc) index = Some e ->
  getitem quote fuel c index h = (Ok (VData e), h).
Proof.
  intros Hc Hcls He.
  assert (E : BaseType_getitem c index h = (Ok e, h)).
  { unfold BaseType_getitem.
    rewrite (bind_run _ _ _ _ _ (get_obj_run _ _ _ Hc)).
    unfold indexed in He. unfold getitem_data, lift.
    destruct (o_data oc) as [d|]; [| discriminate].
    destruct (data_getitem d index); try discriminate. now injection He as ->. }
  destruct fuel; cbn [getitem];
    rewrite (bind_run _ _ _ _ _ (get_obj_run _ _ _ Hc)); rewrite Hcls;
    now rewrite (bind_run _ _ _ _ _ E).
Qed.

Lemma set_data_leaf_run (fuel : nat) (r : ref) (o : obj) (d : option data)
    (h : heap) :
  h !! r = Some o -> o_class o = BaseType ->
  set_data (S fuel) r d h = (Ok tt, <[r := with_data d o]> h).
Proof.
  intros Ho Hcls. cbn [set_data].
  rewrite (bind_run _ _ _ _ _ (get_obj_run _ _ _ Ho)). rewrite Hcls.
  now apply modify_run.
Qed.

Lemma sliced_copies_nil (id : string) (kids : list (ref * obj)) :
  sliced_copies id kids []
  = map (fun kid => copy_of id kid.2 (o_data kid.2)) kids.
Proof.
  induction kids as [|kid kids IH]; [reflexivity |].
  cbn [sliced_copies map]. now rewrite IH.
Qed.

(** The loop of [GridType.__getitem__] over the copies and the slices. *)
Lemma slice_children (fuel : nat) (g : ref) (og out : obj) (id : string)
    (h : heap) :
  h !! g = Some og ->
  forall (rest : list (ref * obj)) (slices : list (pyobj data))
         (done : list obj),
    Forall (variable_of quote h og) rest ->
    (forall kid index,
        In (kid, index) (zip rest slices) ->
        is_Some (indexed (o_data kid.2) index)) ->
    for_each (zip (seq (S (length h + length done)) (length rest)) slices)
      (fun '(var, slice_) =>
         bind (get_obj var) (fun v =>
         bind (StructureType_getitem g (OStr (o_name v))) (fun child =>
         bind (getitem quote (S (S fuel)) child slice_) (fun x =>
         match x with
         | VData d => set_data (S (S (S fuel))) var (Some d)
         | VNode _ => raise TypeError
         end))))
      (h ++ out :: done
         ++ map (fun kid => copy_of id kid.2 (o_data kid.2)) rest)
    = (Ok tt, h ++ out :: done ++ sliced_copies id rest slices).
Proof.
  intros Hg rest.
  induction rest as [|[c oc] rest IH]; intros slices done Hkids Hidx.
  - reflexivity.
  - destruct slices as [|index slices].
    + cbn [zip zip_with for_each]. rewrite sliced_copies_nil.
      destruct (seq _ _); reflexivity.
    + apply Forall_cons in Hkids as [(Hc & Hbase & Hbound & Hq) Hkids].
      cbn [fst snd] in *.
      destruct (Hidx (c, oc) index ltac:(now left)) as [e He]. cbn [snd] in He.
      cbn [length seq zip zip_with for_each map sliced_copies snd].
      set (var := S (length h + length done)).
      set (copy0 := copy_of id oc (o_data oc)).
      set (tail := map _ rest).
      set (H0 := h ++ out :: done ++ copy0 :: tail).
      assert (EH0 : H0 = (h ++ out :: done) ++ copy0 :: tail)
        by (unfold H0; now rewrite <- app_assoc).
      assert (Hvar : H0 !! var = Some copy0).
      { rewrite EH0. apply list_lookup_middle.
        unfold var. rewrite length_app. cbn [length]. lia. }
      assert (Hg0 : H0 !! g = Some og).
      { unfold H0. rewrite lookup_app_l; [exact Hg | now apply lookup_lt_Some in Hg]. }
      assert (Hc0 : H0 !! c = Some oc).
      { unfold H0. rewrite lookup_app_l; [exact Hc | now apply lookup_lt_Some in Hc]. }
      match goal with
      | |- bind ?body ?k H0 = _ =>
          assert (Hbody : body H0
                          = (Ok tt,
                             h ++ out :: (done ++ [copy_of id oc (Some e)])
                               ++ tail))
      end.
      { rewrite (bind_run _ _ _ _ _ (get_obj_run _ _ _ Hvar)).
        cbn [o_name copy0 copy_of StructureType_getitem].
        rewrite (bind_run _ _ _ _ _ (child_of_run _ _ _ _ _ Hg0 Hbound)).
        rewrite (bind_run _ _ _ _ _
                   (getitem_leaf_run (S (S fuel)) c oc index e H0 Hc0 Hbase He)).
        rewrite (set_data_leaf_run _ var copy0 (Some e) H0 Hvar eq_refl).
        f_equal. rewrite EH0.
        replace var with (length (h ++ out :: done) + 0)%nat
          by (unfold var; rewrite length_app; cbn [length]; lia).
        rewrite insert_app_r. cbn [insert list_insert].
        rewrite <- !app_assoc. reflexivity. }
      rewrite (bind_run _ _ _ _ _ Hbody).
      specialize (IH slices (done ++ [copy_of id oc (Some e)]) Hkids).
      rewrite length_app in IH. cbn [length] in IH.
      replace (S (length h + (length done + 1))) with (S var) in IH
        by (unfold var; lia).
      subst tail. rewrite IH.
      * rewrite He, <- !app_assoc. reflexivity.
      * intros kid index' Hin. apply Hidx. now right.
Qed.

Lemma zip_take_length {A B : Type} (l : list A) (k : list B) :
  zip (take (S (length k)) l) k = zip l k.
Proof.
  revert k. induction l as [|x l IH]; intros [|y k]; try reflexivity.
  cbn [length]. change (take (S (S (length k))) (x :: l))
      with (x :: take (S (length k)) l).
    cbn [zip zip_with]. f_equal. apply IH.
Qed.

Lemma sliced_copies_lookup (id : string) (kids : list (ref * obj)) :
  forall (slices : list (pyobj data)) (i : nat) (kid : ref * obj),
    kids !! i = Some kid ->
    sliced_copies id kids slices !! i
    = Some (copy_of id kid.2 (grid_child_data slices i kid.2)).
Proof.
  induction kids as [|kid0 kids IH]; intros slices i kid Hi; [discriminate |].
  destruct i as [|i]; cbn in Hi.
  - injection Hi as ->. destruct slices; reflexivity.
  - destruct slices as [|index slices]; cbn [sliced_copies];
      rewrite lookup_cons; rewrite (IH _ i kid Hi); reflexivity.
Qed.

Lemma sliced_copies_length (id : string) (kids : list (ref * obj)) :
  forall slices : list (pyobj data),
    length (sliced_copies id kids slices) = length kids.
Proof.
  induction kids as [|kid kids IH]; intros [|index slices]; cbn;
    try reflexivity; now rewrite IH.
Qed.

(** Non-string keys take the second branch of [GridType.__getitem__]. *)
Lemma getitem_grid_unfold (fuel : nat) (g : ref) (og : obj)
    (key : pyobj data) (h : heap) :
  h !! g = Some og -> o_class og = GridType -> is_name key = false ->
  getitem quote (S fuel) g key h
  = bind (clone quote (S fuel) g) (fun out =>
    bind (get_obj out) (fun oo =>
    bind (map_M (child_of out)
            (take (S (length (grid_slices key))) (children_keys oo))) (fun vars =>
    bind (for_each (zip vars (grid_slices key)) (fun '(var, slice_) =>
            bind (get_obj var) (fun v =>
            bind (StructureType_getitem g (OStr (o_name v))) (fun child =>
            bind (getitem quote fuel child slice_) (fun x =>
            match x with
            | VData d => set_data (S fuel) var (Some d)
            | VNode _ => raise TypeError
            end))))) (fun _ =>
    ret (VNode out))))) h.
Proof.
  intros Hg Hcls Hkey. cbn [getitem].
  rewrite (bind_run _ _ _ _ _ (get_obj_run _ _ _ Hg)). rewrite Hcls.
  destruct key; try discriminate; reflexivity.
Qed.

(** C8, as the code has it.  Let [g] be a grid whose children are
    variables, the array first and then the maps, and [key] an index that
    is no string, a bare index standing for the tuple of itself alone.
    Then [g[key]] is a new grid, nothing of the old heap being changed,
    with the same keys and a copy of each child: the copy of the array
    holds the data of the array indexed by the whole tuple, the copy of
    the [i]-th map holds the data of that map indexed by the [i]-th element
    of the tuple, and the copies of the maps beyond the tuple hold the data
    of their maps as they are.  So with a bare index the first map is
    indexed by it, and only the maps after the first are left alone. *)
Theorem grid_getitem_slices (fuel : nat) (g : ref) (og : obj)
    (kids : list (ref * obj)) (key : pyobj data) (h : heap) :
  h !! g = Some og -> o_class og = GridType ->
  o_keys og = map (fun kid => o_name kid.2) kids ->
  List.NoDup (o_keys og) ->
  Forall (variable_of quote h og) kids ->
  is_name key = false ->
  (forall i kid index,
      kids !! i = Some kid -> grid_slices key !! i = Some index ->
      is_Some (indexed (o_data kid.2) index)) ->
  (3 <= fuel)%nat ->
  exists new : list obj,
    getitem quote fuel g key h = (Ok (VNode (length h)), h ++ new)
    /\ Scenes.look (length h) (h ++ new)
       = (Ok (o_keys og, None,
              map (fun o => (o_name o, o_data o))
                  (sliced_copies (o_id og) kids (grid_slices key))),
          h ++ new)
    /\ (forall i kid,
          kids !! i = Some kid ->
          sliced_copies (o_id og) kids (grid_slices key) !! i
          = Some (copy_of (o_id og) kid.2
                    (grid_child_data (grid_slices key) i kid.2)))
    /\ grid_slices key !! 0%nat = Some (OTuple (as_tuple key))
    /\ (forall i, grid_slices key !! S i = as_tuple key !! i)
    /\ (forall items, key = OTuple items -> as_tuple key = items)
    /\ ((forall items, key <> OTuple items) -> as_tuple key = [key]).
Proof.
  intros Hg Hcls Hkeys Hnd Hkids Hkey Hidx Hfuel.
  destruct fuel as [|[|[|fuel]]]; try lia.
  set (L := length h).
  set (out1 := attach_all kids (S L)
                 (Obj GridType (quote (o_name og)) (∅ ∪ o_attributes og)
                      (o_id og) [] ∅ None [])).
  set (slices := grid_slices key).
  set (copies := sliced_copies (o_id og) kids slices).
  assert (Hnd' : List.NoDup (map (fun kid : ref * obj => o_name kid.2) kids))
    by now rewrite <- Hkeys.
  assert (Hkeys1 : o_keys out1 = o_keys og).
  { unfold out1. rewrite attach_all_keys; [now rewrite Hkeys | exact Hnd']. }
  destruct (attach_all_fields kids (S L)
              (Obj GridType (quote (o_name og)) (∅ ∪ o_attributes og)
                   (o_id og) [] ∅ None []))
    as (Hcls1 & Hid1 & Hdata1 & _).
  fold out1 in Hcls1, Hid1, Hdata1. cbn in Hcls1, Hid1, Hdata1.
  assert (Hdict1 : forall i kid, kids !! i = Some kid ->
                     o_dict out1 !! o_name kid.2 = Some (S L + i)%nat).
  { intros i kid Hi. unfold out1. now apply attach_all_dict. }
  exists (out1 :: copies).
  split; [| split; [| split; [| split; [| split; [| split]]]]].
  - rewrite (getitem_grid_unfold _ g og key h Hg Hcls Hkey).
    rewrite (bind_run _ _ _ _ _
               (clone_grid_run fuel g og h kids Hg Hcls Hkeys Hkids)).
    fold L out1.
    set (copies0 := map (fun kid : ref * obj => copy_of (o_id og) kid.2 (o_data kid.2)) kids).
    assert (Hout : (h ++ out1 :: copies0) !! L = Some out1)
      by now apply list_lookup_middle.
    rewrite (bind_run _ _ _ _ _ (get_obj_run _ _ _ Hout)).
    replace (children_keys out1) with (map (fun kid : ref * obj => o_name kid.2) kids)
      by (unfold children_keys; now rewrite Hcls1, Hkeys1, Hkeys).
    fold slices.
    assert (Hvars : Forall2
              (fun x y => child_of L x (h ++ out1 :: copies0)
                          = (Ok y, h ++ out1 :: copies0))
              (take (S (length slices)) (map (fun kid : ref * obj => o_name kid.2) kids))
              (take (S (length slices)) (seq (S L) (length kids)))); [| 
    rewrite (bind_run _ _ _ _ _ (map_M_run _ _ _ _ Hvars))].
    2: { rewrite zip_take_length.
      pose proof (slice_children fuel g og out1 (o_id og) h Hg kids slices []
                    Hkids) as Hloop.
      cbn [length app] in Hloop. rewrite Nat.add_0_r in Hloop.
      fold L copies0 in Hloop.
      assert (Hin : forall kid index,
                 In (kid, index) (zip kids slices) ->
                 is_Some (indexed (o_data kid.2) index)).
      { intros kid index Hin.
        apply list_elem_of_In, list_elem_of_lookup in Hin as [i Hi].
        apply lookup_zip_with_Some in Hi as (kid' & index' & E & Hk & Hs).
        injection E as <- <-. now apply (Hidx i). }
      rewrite (bind_run _ _ _ _ _ (Hloop Hin)). reflexivity. }
    apply Forall2_take. apply Forall2_same_length_lookup_2.
      * now rewrite length_map, length_seq.
      * intros i name r Hname Hr.
        rewrite list_lookup_fmap in Hname.
        destruct (kids !! i) as [kid|] eqn:Hi; [| discriminate].
        injection Hname as <-.
        apply lookup_seq in Hr as [-> _].
        apply (child_of_run L _ out1 _ _ Hout). now apply Hdict1.
  - unfold Scenes.look.
    assert (Hout : (h ++ out1 :: copies) !! L = Some out1)
      by now apply list_lookup_middle.
    rewrite (bind_run _ _ _ _ _ (get_obj_run _ _ _ Hout)).
    match goal with
    | |- bind (map_M ?f ?xs) ?k ?hh = _ =>
        assert (Hseen : Forall2 (fun x y => f x hh = (Ok y, hh)) xs
                          (map (fun o => (o_name o, o_data o)) copies));
          [| rewrite (bind_run _ _ _ _ _ (map_M_run _ _ _ _ Hseen));
             now rewrite Hkeys1, Hdata1]
    end.
    apply Forall2_same_length_lookup_2.
      * rewrite Hkeys1, Hkeys, !length_map. unfold copies.
        now rewrite sliced_copies_length.
      * intros i name y Hname Hy.
        rewrite Hkeys1, Hkeys, list_lookup_fmap in Hname.
        destruct (kids !! i) as [kid|] eqn:Hi; [| discriminate].
        injection Hname as <-.
        rewrite list_lookup_fmap in Hy. unfold copies in Hy.
        rewrite (sliced_copies_lookup _ _ _ _ _ Hi) in Hy.
        injection Hy as <-.
        rewrite (bind_run _ _ _ _ _
                   (child_of_run L _ out1 _ _ Hout (Hdict1 i kid Hi))).
        assert (Hcopy : (h ++ out1 :: copies) !! (S L + i)%nat
                        = Some (copy_of (o_id og) kid.2
                                  (grid_child_data slices i kid.2))).
        { rewrite lookup_app_r by (unfold L; lia).
          replace (S L + i - length h)%nat with (S i) by (unfold L; lia).
          cbn. unfold copies. now apply sliced_copies_lookup. }
        now rewrite (bind_run _ _ _ _ _ (get_obj_run _ _ _ Hcopy)).
  - intros i kid Hi. now apply sliced_copies_lookup.
  - reflexivity.
  - reflexivity.
  - now intros items ->.
  - intros Hno. destruct key; try reflexivity. now destruct (Hno items).
Qed.

(** ** Calls that build new objects and spare the old ones *)








Lemma builds_weaken {A : Type} (old : heap) (Q R : A -> Prop) (m : M A) :
  builds old Q m -> (forall a, Q a -> R a) -> builds old R m.
Proof.
  intros Hm HQR h Hh. destruct (Hm h Hh) as [Hext Hq].
  split; [exact Hext | auto].
Qed.










(** *** The calls of the model *)




















(** ** Looking up and deleting what was inserted *)







(** ** The copy of a variable *)


(** ** The cascade, for any tree *)


(** ** The data of a structure *)










(** ** Building a grid, and what its properties then give *)








(** ** Indexing a sequence *)










#[local] Close Scope list_scope.

End Tree.

(** ** Ids *)

Section Ids.

Context {data : Type} `{ArrayLike data}.

(** A [quote] that leaves the names of a list alone is, on those names, the
    function that returns its argument. *)
Lemma quote_fixes (names : list string) (quote : string -> string) :
  (forall s, In s names -> quote s = s) ->
  quote = fun s => if existsb (String.eqb s) names then s else quote s.
Proof.
  intros Hq. apply functional_extensionality. intros s.
  destruct (existsb (String.eqb s) names) eqn:E; [| reflexivity].
  apply Hq. apply existsb_exists in E as (x & Hx & E).
  apply String.eqb_eq in E. now subst.
Qed.

(** C6: attaching the root [item] of a subtree under a container sets the
    id of every node of the subtree.  Under a [DatasetType] the id of
    [item] is its name, the name of the dataset being left out; under any
    other container it is the id of the container, a dot, and the name.
    The id of a node below [item] is the id of [item] followed by the names
    of the nodes on the way down to it, a dot before each, whatever the ids
    were before.  So with the dataset [D], the structure [S] and the
    variable [B] attached each under its parent, in either order, the id of
    [S] is ["S"] and the id of [B] is ["S.B"]. *)
Theorem ids_cascade (quote : string -> string) :
  (forall (depth fuel : nat) (self item : ref) (o it : @obj data)
          (key : string) (nodes : list ref) (h : list (@obj data)),
      h !! self = Some o -> o_class o <> BaseType ->
      h !! item = Some it -> tree depth h item nodes -> ~ In self nodes ->
      quote key = o_name it -> (o_class o = DatasetType -> key = o_name it) ->
      (depth <= fuel)%nat ->
      exists h',
        setitem quote fuel self key item h = (Ok tt, h')
        /\ forall (names : list string) (c : ref) (oc : @obj data),
             below h' item names c -> h' !! c = Some oc ->
             o_id oc
             = ((match o_class o with
                 | DatasetType => o_name it
                 | _ => o_id o ++ "." ++ o_name it
                 end) ++ dotted names)%string)
  /\ (forall fuel : nat,
        (forall s, In s ["D"; "S"; "B"] -> quote s = s) ->
        (2 <= fuel)%nat ->
        fst (Scenes.nest_top_down (data := data) quote fuel [])
        = Ok ("S", "S.B")
        /\ fst (Scenes.nest_bottom_up (data := data) quote fuel [])
           = Ok ("S", "S.B")).
Proof.
  split.
  - intros depth fuel self item o it key nodes h Ho Hcls Hit Htree Hself Hq
      Hraw Hfuel.
    destruct (setitem_cascade quote depth fuel self item o it key nodes h
                Ho Hcls Hit Htree Hself Hq Hraw Hfuel)
      as (h' & it' & Hrun & Hit' & Hid & Hids & Htree').
    exists h'. split; [exact Hrun |].
    intros names c oc Hb Hoc. rewrite <- Hid.
    exact (ids_below depth h' item nodes names c it' oc Htree' Hids Hb Hit' Hoc).
  - intros fuel Hq Hfuel. rewrite (quote_fixes _ quote Hq).
    destruct fuel as [|[|fuel]]; try lia.
    split; vm_compute; reflexivity.
Qed.

End Ids.

(** ** The sequence of the docstring *)

(** C9: on the sequence with the rows of index 10, 11, 12 and 13, the rows
    with [index > 10], every second of them taken, are the rows of index 11
    and 13; and for every tuple of field names, selecting the names after
    the two row operations, before them or between them gives one and the
    same sequence: the named fields of those two rows. *)
Theorem sequence_filter_select (quote : string -> string) (fuel : nat) :
  (forall s, In s ["example"; "index"; "temperature"; "site"] -> quote s = s) ->
  (3 <= fuel)%nat ->
  fst (Scenes.filter_only quote fuel [])
  = Scenes.seen Scenes.survivors ["index"; "temperature"; "site"]
  /\ data_getitem Scenes.survivors (OStr "index")
     = Ok (Scenes.int_array [11; 13])
  /\ Scenes.seen Scenes.survivors ["site"; "index"]
     = Ok (["site"; "index"],
           Some (Table ["site"; "index"]
                   [[Scalar (CStr "Blacktail_Loop"); Scalar (CInt 11)];
                    [Scalar (CStr "Kodiak_Trail"); Scalar (CInt 13)]]),
           [("site", Some (Array [Scalar (CStr "Blacktail_Loop");
                                  Scalar (CStr "Kodiak_Trail")]));
            ("index", Some (Scenes.int_array [11; 13]))])
  /\ Forall (fun names =>
        fst (Scenes.filter_then_select quote fuel names [])
        = Scenes.seen Scenes.survivors names
        /\ fst (Scenes.select_then_filter quote fuel names [])
           = Scenes.seen Scenes.survivors names
        /\ fst (Scenes.select_between quote fuel names [])
           = Scenes.seen Scenes.survivors names)
       Scenes.selections.
Proof.
  intros Hq Hfuel. rewrite (quote_fixes _ quote Hq).
  destruct fuel as [|[|[|fuel]]]; try lia.
  split; [vm_compute; reflexivity |]. split; [reflexivity |].
  split; [reflexivity |].
  unfold Scenes.selections.
  repeat (apply List.Forall_cons;
          [split; [| split]; vm_compute; reflexivity |]).
  apply List.Forall_nil.
Qed.

(** ** Indexing a grid *)

(** C8 fails as stated.  With the tuple (0:1, 0:2) the array of the grid is
    indexed by the whole tuple, not by its first element, and the first map
    by the first element, not by the second; with the bare index 1 the
    first map is indexed too, and does not stay as it was. *)
Lemma grid_index_tuple_goes_to_array :
  fst (Scenes.rain_at lib_quote 3 (OTuple [Scenes.upto 1; Scenes.upto 2]) [])
  = Ok (["rain"; "y"; "x"], None,
        [("rain", Some (Array [Scenes.int_array [0; 1]]));
         ("y", Some (Scenes.int_array [0]));
         ("x", Some (Scenes.int_array [0; 1]))])
  /\ data_getitem Scenes.rain_data (Scenes.upto 1)
     = Ok (Array [Scenes.int_array [0; 1; 2]])
  /\ Array [Scenes.int_array [0; 1]] <> Array [Scenes.int_array [0; 1; 2]]
  /\ data_getitem (Scenes.int_array [0; 1]) (Scenes.upto 2)
     = Ok (Scenes.int_array [0; 1])
  /\ Scenes.int_array [0] <> Scenes.int_array [0; 1]
  /\ fst (Scenes.rain_at lib_quote 3 (OInt 1) [])
     = Ok (["rain"; "y"; "x"], None,
           [("rain", Some (Scenes.int_array [3; 4; 5]));
            ("y", Some (Scalar (CInt 1)));
            ("x", Some (Scenes.int_array [0; 1; 2]))])
  /\ Scalar (CInt 1) <> Scenes.int_array [0; 1].
Proof. repeat split; try (vm_compute; reflexivity); discriminate. Qed.

(** ** The general properties at work *)

Lemma lib_quote_plain (names : list string) :
  forallb (fun s => String.eqb (lib_quote s) s) names = true ->
  forall s, In s names -> lib_quote s = s.
Proof.
  intros Hall s Hs. rewrite forallb_forall in Hall.
  now apply String.eqb_eq, Hall.
Qed.

(** C4, a witness: [index] is put again into the sequence of the docstring
    and moves from the head of the keys to their tail. *)
Lemma setitem_key_at_tail_witness :
  exists o',
    snd (setitem lib_quote 2 0 "index" 4 Scenes.station_heap) !! 0%nat = Some o'
    /\ getitem lib_quote 2 0 (OStr "index")
         (snd (setitem lib_quote 2 0 "index" 4 Scenes.station_heap))
       = (Ok (VNode 4), snd (setitem lib_quote 2 0 "index" 4 Scenes.station_heap))
    /\ o_keys o' = ["temperature"; "site"; "index"]
    /\ ~ In "index" ["temperature"; "site"]
    /\ count_occ string_dec (o_keys o') "index" = 1%nat
    /\ last (o_keys o') = Some "index"
    /\ List.NoDup (o_keys o').
Proof.
  apply (setitem_key_at_tail lib_quote 2 0 4
           (Scenes.object_at Scenes.station_heap 0)
           (Scenes.object_at Scenes.station_heap 4)
           "index" Scenes.station_heap).
  - reflexivity.
  - reflexivity.
  - reflexivity.
  - repeat constructor; simpl; intuition discriminate.
  - vm_compute. reflexivity.
Defined.

(** C5, a witness: [seq["site"] = x] for a variable [x] named [index]. *)
Lemma setitem_mismatch_unchanged_witness :
  setitem lib_quote 2 0 "site" 4 Scenes.station_heap
  = (Raise KeyError, Scenes.station_heap).
Proof.
  apply (setitem_mismatch_unchanged lib_quote 2 0 4
           (Scenes.object_at Scenes.station_heap 0)
           (Scenes.object_at Scenes.station_heap 4)
           "site" Scenes.station_heap).
  - reflexivity.
  - discriminate.
  - reflexivity.
  - left. discriminate.
Defined.

(** C5 fails as stated: the key ["a b"] differs from the name ["a%20b"] of
    the variable made as [BaseType("a b")], and yet a structure accepts
    [s["a b"] = x], and is changed by it: the key is quoted before it is
    compared. *)
Lemma setitem_quotes_key :
  (exists x, Scenes.spaced_heap !! 1%nat = Some x /\ o_name x = "a%20b"
             /\ "a b" <> o_name x)
  /\ fst (setitem lib_quote 2 0 "a b" 1 Scenes.spaced_heap) = Ok tt
  /\ o_keys <$> Scenes.spaced_heap !! 0%nat = Some []
  /\ o_keys <$> snd (setitem lib_quote 2 0 "a b" 1 Scenes.spaced_heap) !! 0%nat
     = Some ["a%20b"]
  /\ snd (setitem lib_quote 2 0 "a b" 1 Scenes.spaced_heap)
     <> Scenes.spaced_heap.
Proof.
  split; [eexists; split; [reflexivity | split; [reflexivity | discriminate]] |].
  split; [vm_compute; reflexivity |].
  split; [reflexivity |].
  split; [vm_compute; reflexivity |].
  intros E. apply (f_equal (fun h => o_keys <$> h !! 0%nat)) in E.
  vm_compute in E. discriminate.
Qed.

Lemma moved_tree : tree 3 Scenes.moved_heap 2 [2; 3; 4]%nat.
Proof.
  exists (Scenes.object_at Scenes.moved_heap 2), [[3; 4]]%nat.
  split; [reflexivity |]. split; [reflexivity |].
  split; [repeat constructor; simpl; intuition discriminate |].
  repeat constructor.
  exists 3%nat. split; [vm_compute; reflexivity |].
  exists (Scenes.object_at Scenes.moved_heap 3), [[4]]%nat.
  split; [reflexivity |]. split; [reflexivity |].
  split; [repeat constructor; simpl; intuition discriminate |].
  repeat constructor.
  exists 4%nat. split; [vm_compute; reflexivity |].
  exists (Scenes.object_at Scenes.moved_heap 4), [].
  split; [reflexivity |]. split; [reflexivity |].
  split; [repeat constructor; simpl; intuition | constructor].
Defined.

(** C6, a witness: the structure [S], which holds [T], which holds [B], is
    moved from the structure [P] into the dataset [D]; the id of [B] was
    ["P.S.T.B"] and becomes ["S.T.B"]. *)
Lemma ids_cascade_witness :
  o_id <$> Scenes.moved_heap !! 4%nat = Some "P.S.T.B"
  /\ exists h',
       setitem lib_quote 3 0 "S" 2 Scenes.moved_heap = (Ok tt, h')
       /\ o_id <$> h' !! 2%nat = Some "S"
       /\ o_id <$> h' !! 3%nat = Some "S.T"
       /\ o_id <$> h' !! 4%nat = Some "S.T.B".
Proof.
  split; [reflexivity |].
  destruct (proj1 (ids_cascade (data := ndarray) lib_quote)
              3%nat 3%nat 0%nat 2%nat
              (Scenes.object_at Scenes.moved_heap 0)
              (Scenes.object_at Scenes.moved_heap 2)
              "S" [2; 3; 4]%nat Scenes.moved_heap)
    as (h' & Hrun & Hids).
  - reflexivity.
  - discriminate.
  - reflexivity.
  - exact moved_tree.
  - simpl. intuition discriminate.
  - reflexivity.
  - reflexivity.
  - lia.
  - exists h'. split; [exact Hrun |].
    assert (E : h' = snd (setitem lib_quote 3 0 "S" 2 Scenes.moved_heap))
      by now rewrite Hrun.
    assert (H2 : exists o2, h' !! 2%nat = Some o2 /\ o_name o2 = "S")
      by (rewrite E; eexists; split; vm_compute; reflexivity).
    assert (H3 : exists o3, h' !! 3%nat = Some o3 /\ o_name o3 = "T"
                            /\ o_dict o3 !! "B" = Some 4%nat
                            /\ children_keys o3 = ["B"])
      by (rewrite E; eexists; repeat split; vm_compute; reflexivity).
    assert (H4 : exists o4, h' !! 4%nat = Some o4 /\ o_name o4 = "B")
      by (rewrite E; eexists; split; vm_compute; reflexivity).
    assert (H2' : exists o2, h' !! 2%nat = Some o2
                             /\ o_dict o2 !! "T" = Some 3%nat
                             /\ children_keys o2 = ["T"])
      by (rewrite E; eexists; repeat split; vm_compute; reflexivity).
    destruct H2 as (o2 & Ho2 & _), H3 as (o3 & Ho3 & Hn3 & Hd3 & Hk3),
      H4 as (o4 & Ho4 & Hn4), H2' as (o2' & Ho2' & Hd2 & Hk2).
    rewrite Ho2 in Ho2'. injection Ho2' as <-.
    assert (B3 : below h' 2%nat ["T"] 3%nat).
    { exists o2, "T", 3%nat, o3. rewrite Hk2.
      repeat split; try assumption. now left. }
    assert (B4 : below h' 2%nat ["T"; "B"] 4%nat).
    { exists o2, "T", 3%nat, o3. rewrite Hk2.
      repeat split; try assumption; [now left |].
      exists o3, "B", 4%nat, o4. rewrite Hk3.
      repeat split; try assumption. now left. }
    rewrite Ho2, Ho3, Ho4. cbn [fmap option_fmap option_map].
    rewrite (Hids [] 2%nat o2 eq_refl Ho2), (Hids _ _ o3 B3 Ho3),
      (Hids _ _ o4 B4 Ho4).
    repeat split.
Defined.

(** C8, a witness: the grid [rain] indexed by the tuple (0:1, 0:2). *)
Lemma grid_getitem_slices_witness :
  exists new : list (@obj ndarray),
    getitem lib_quote 3 0 (OTuple [Scenes.upto 1; Scenes.upto 2])
      Scenes.rain_heap
    = (Ok (VNode 4), (Scenes.rain_heap ++ new)%list)
    /\ fst (Scenes.look 4 (Scenes.rain_heap ++ new)%list)
       = Ok (["rain"; "y"; "x"], None,
             [("rain", Some (Array [Scenes.int_array [0; 1]]));
              ("y", Some (Scenes.int_array [0]));
              ("x", Some (Scenes.int_array [0; 1]))]).
Proof.
  destruct (grid_getitem_slices lib_quote 3 0
              (Scenes.object_at Scenes.rain_heap 0) Scenes.rain_kids
              (OTuple [Scenes.upto 1; Scenes.upto 2]) Scenes.rain_heap)
    as (new & Hget & Hlook & _).
  - reflexivity.
  - reflexivity.
  - reflexivity.
  - repeat constructor; simpl; intuition discriminate.
  - repeat constructor.
  - reflexivity.
  - intros [|[|[|i]]] kid index Hk Hs; try discriminate;
      injection Hk as <-; injection Hs as <-; eexists; vm_compute; reflexivity.
  - lia.
  - exists new. split; [exact Hget |].
    change (fst (Scenes.look (length Scenes.rain_heap)
                   (Scenes.rain_heap ++ new)%list) = Ok (["rain"; "y"; "x"], None,
             [("rain", Some (Array [Scenes.int_array [0; 1]]));
              ("y", Some (Scenes.int_array [0]));
              ("x", Some (Scenes.int_array [0; 1]))])).
    rewrite Hlook. reflexivity.
Defined.

(** C9, a witness. *)
Lemma sequence_filter_select_witness :
  fst (Scenes.filter_only lib_quote 3 [])
  = Scenes.seen Scenes.survivors ["index"; "temperature"; "site"]
  /\ data_getitem Scenes.survivors (OStr "index")
     = Ok (Scenes.int_array [11; 13])
  /\ Scenes.seen Scenes.survivors ["site"; "index"]
     = Ok (["site"; "index"],
           Some (Table ["site"; "index"]
                   [[Scalar (CStr "Blacktail_Loop"); Scalar (CInt 11)];
                    [Scalar (CStr "Kodiak_Trail"); Scalar (CInt 13)]]),
           [("site", Some (Array [Scalar (CStr "Blacktail_Loop");
                                  Scalar (CStr "Kodiak_Trail")]));
            ("index", Some (Scenes.int_array [11; 13]))])
  /\ Forall (fun names =>
        fst (Scenes.filter_then_select lib_quote 3 names [])
        = Scenes.seen Scenes.survivors names
        /\ fst (Scenes.select_then_filter lib_quote 3 names [])
           = Scenes.seen Scenes.survivors names
        /\ fst (Scenes.select_between lib_quote 3 names [])
           = Scenes.seen Scenes.survivors names)
       Scenes.selections.
Proof.
  apply (sequence_filter_select lib_quote 3).
  - apply lib_quote_plain. reflexivity.
  - lia.
Defined.

(** C10, a witness: a structure with a child [units] and metadata
    [units]. *)
Lemma getattr_child_first_witness :
  getattr lib_quote Scenes.no_attribute 0 0 "units" Scenes.shadowed_heap
  = (Ok (Hooked (Child 1)), Scenes.shadowed_heap).
Proof.
  assert (Ho : Scenes.shadowed_heap !! 0%nat
               = Some (Scenes.object_at Scenes.shadowed_heap 0))
    by reflexivity.
  assert (Hc : o_class (Scenes.object_at Scenes.shadowed_heap 0) <> BaseType)
    by discriminate.
  apply (proj1 (getattr_child_first lib_quote Scenes.no_attribute 0 0 _ "units"
                  Scenes.shadowed_heap Ho Hc eq_refl) 1%nat (OStr "m/s"));
    reflexivity.
Defined.

(** C10 fails as stated: the structure [s] has a child under [id] and an
    entry [id] in its metadata, and [s.id] is neither of them but the id of
    [s], the property of the class being found before [__getattr__] is
    asked; [__getattr__] itself would return the child.  In the same way
    [s.name], [s.attributes], [s.data], [s.keys] and [s.clone] are what the
    structure has under these names, whatever its children are called. *)
Lemma getattr_own_attribute_first :
  (exists o, Scenes.named_id_heap !! 0%nat = Some o
             /\ o_class o = StructureType
             /\ o_dict o !! "id" = Some 1%nat
             /\ o_attributes o !! "id" = Some (OStr "metadata"))
  /\ getattr lib_quote Scenes.no_attribute 2 0 "id" Scenes.named_id_heap
     = (Ok (Own (Text "s")), Scenes.named_id_heap)
  /\ getattr lib_quote Scenes.no_attribute 2 0 "id" Scenes.named_id_heap
     <> (Ok (Hooked (Child 1)), Scenes.named_id_heap)
  /\ getattr_hook lib_quote 2 0 "id" Scenes.named_id_heap
     = (Ok (Child 1), Scenes.named_id_heap)
  /\ Forall (fun k => ordinary StructureType k = true)
       ["id"; "name"; "attributes"; "data"; "keys"; "clone"]
  /\ fst (getattr lib_quote Scenes.no_attribute 2 0 "name" Scenes.named_id_heap)
     = Ok (Own (Text "s"))
  /\ fst (getattr lib_quote Scenes.no_attribute 2 0 "keys" Scenes.named_id_heap)
     = Ok (Own (Of_class (In_class StructureType) "keys")).
Proof.
  split.
  { eexists. split; [reflexivity |]. split; [reflexivity |].
    split; vm_compute; reflexivity. }
  split; [vm_compute; reflexivity |].
  split; [vm_compute; discriminate |].
  split; [vm_compute; reflexivity |].
  split; [repeat constructor |].
  split; vm_compute; reflexivity.
Qed.













End ModelFacts.
